(** * GitOps commands of the cloud-native toolkit CLI

    A shallow embedding of
    - [src/commands/support/gitops-module-common.ts] ([commonHandler], [createMutex]),
    - [src/commands/gitops-namespace.ts] and [src/commands/gitops-module.ts]
      (the two yargs command modules: [builder] and [handler]),
    - [src/services/gitops-module/gitops-module.api.ts] ([GitOpsLayer]),
    - [src/services/namespace/namespace.ts] ([NamespaceImpl]).

    JavaScript objects are finite maps from property names to values,
    [async] functions are computations in a monad that threads the state of
    the IoC container, the handler's local variable and the trace of calls
    made to outside collaborators, and whose result is a JavaScript
    completion: it returns normally (the promise resolves) or it throws
    (the promise rejects). *)

From Stdlib Require Import ZArith Bool List.
From stdpp Require Import base strings gmap list.

Local Open Scope string_scope.
Local Open Scope list_scope.

(** ** JavaScript values, objects and completions *)

Module JS.

(** The primitive values that yargs stores in [argv]. *)
Inductive JsValue : Type :=
| JUndefined
| JBool (b : bool)
| JNum (n : Z)
| JStr (s : string).

#[global] Instance JsValue_eq_dec : EqDecision JsValue.
Proof. solve_decision. Defined.

(** [v === 'lit']: strict equality against a string literal. *)
Definition strict_eq_str (v : JsValue) (lit : string) : bool :=
  match v with
  | JStr s => String.eqb s lit
  | _ => false
  end.

(** ToBoolean. *)
Definition truthy (v : JsValue) : bool :=
  match v with
  | JUndefined => false
  | JBool b => b
  | JNum n => negb (n =? 0)%Z
  | JStr s => negb (String.eqb s "")
  end.

(** [a || b]. *)
Definition js_or (a b : JsValue) : JsValue :=
  if truthy a then a else b.

(** A plain object; [Arguments<T>] of yargs is one. *)
Abbreviation JsObject := (gmap string JsValue).

(** [o.k]: a property that is absent reads as [undefined]. *)
Definition field (o : JsObject) (k : string) : JsValue :=
  default JUndefined (o !! k).

(** [Object.assign({}, a, b)]: own properties of [a], then those of [b]
    written over them.  [b ∪ a] is left-biased. *)
Definition object_assign (a b : JsObject) : JsObject := b ∪ a.

(** [process.env.NAME]. *)
Definition process_env (env : gmap string string) (name : string) : JsValue :=
  match env !! name with
  | Some s => JStr s
  | None => JUndefined
  end.

(** Values that can be thrown. *)
Inductive JsError : Type :=
| TypeError (msg : string)
| Thrown (name msg : string).

#[global] Instance JsError_eq_dec : EqDecision JsError.
Proof. solve_decision. Defined.

(** Completion of a statement or of an awaited promise. *)
Inductive Completion (A : Type) : Type :=
| Normal (a : A)
| Throw (e : JsError).
Arguments Normal {A} a.
Arguments Throw {A} e.

End JS.
Import JS.

(** ** Collaborators of the handler *)

(** [Logger], as produced by [verboseLoggerFactory(argv.debug)]. *)
Inductive Logger : Type :=
| VerboseLogger (debug : JsValue).

(** The implementation that [Container.get(GitOpsModuleApi)] resolves to:
    the one the application configured, or the pull-request based one. *)
Inductive GitOpsModuleApi : Type :=
| ConfiguredImpl
| GitopsModulePRImpl.

(** [IMutex]: the two classes that [createMutex] instantiates, with their
    constructor arguments. *)
Inductive IMutex : Type :=
| Mutex (tmpDir : JsValue) (scope : string) (logger : Logger)
| NoopMutex.

(** The descriptor handed to [mutex.claim]. *)
Record MutexKey : Type := mkMutexKey {
  key_name : JsValue;
  key_namespace : JsValue;
  key_contentDir : JsValue
}.

(** [ClaimedMutex]: what a successful [claim] resolves to. *)
Inductive ClaimedMutex : Type :=
| NoopClaim
| FileClaim (tmpDir : JsValue) (scope : string) (key : MutexKey).

#[global] Instance Logger_eq_dec : EqDecision Logger.
Proof. solve_decision. Defined.
#[global] Instance GitOpsModuleApi_eq_dec : EqDecision GitOpsModuleApi.
Proof. solve_decision. Defined.
#[global] Instance IMutex_eq_dec : EqDecision IMutex.
Proof. solve_decision. Defined.
#[global] Instance MutexKey_eq_dec : EqDecision MutexKey.
Proof. solve_decision. Defined.
#[global] Instance ClaimedMutex_eq_dec : EqDecision ClaimedMutex.
Proof. solve_decision. Defined.

(** What lies outside the process: the lock directory and the GitOps
    service.  The handler only observes how their promises settle. *)
Record World : Type := mkWorld {
  (** [new Mutex(tmpDir, scope, logger).claim(key)] *)
  fs_claim : JsValue -> string -> MutexKey -> Completion unit;
  (** [claim.release()] of a claim on the filesystem *)
  fs_release : JsValue -> string -> MutexKey -> Completion unit;
  (** [service.populate(argv)] *)
  populate : GitOpsModuleApi -> JsObject -> Completion unit
}.

(** Modelled from the spec: the classes [Mutex] and [NoopMutex] of
    [util/mutex] are not among the sources.  The no-op variant's [claim]
    "returns immediately with a trivial claim"; the pessimistic variant
    creates a lock marker under [tmpDir]/[scope] or fails once its bounded
    wait is over, which the world decides. *)
Definition mutex_claim (w : World) (m : IMutex) (key : MutexKey) : Completion ClaimedMutex :=
  match m with
  | NoopMutex => Normal NoopClaim
  | Mutex tmpDir scope _ =>
      match fs_claim w tmpDir scope key with
      | Normal _ => Normal (FileClaim tmpDir scope key)
      | Throw e => Throw e
      end
  end.

(** Modelled from the spec: [release] of the no-op variant "is a no-op";
    the pessimistic variant deletes its marker. *)
Definition claim_release (w : World) (c : ClaimedMutex) : Completion unit :=
  match c with
  | NoopClaim => Normal tt
  | FileClaim tmpDir scope key => fs_release w tmpDir scope key
  end.

(** ** The handler's monad *)

(** Calls that leave the handler, in the order they are made. *)
Inductive Event : Type :=
| EBindLogger (debug : JsValue)
| EBindApi (impl : GitOpsModuleApi)
| EGetLogger
| EClaim (m : IMutex) (key : MutexKey)
| EGetApi (impl : GitOpsModuleApi)
| EPopulate (impl : GitOpsModuleApi) (argv : JsObject)
| EConsoleError (msg : string) (err : JsError)
| ERelease (c : ClaimedMutex).

(** The bindings of the typescript-ioc [Container] that the handler touches. *)
Record Container : Type := mkContainer {
  bound_logger : Logger;
  bound_api : GitOpsModuleApi
}.

(** State threaded through [commonHandler]: the global container, the
    local [let claim: ClaimedMutex] and the trace. *)
Record HState : Type := mkHState {
  container : Container;
  claim_var : option ClaimedMutex;
  trace : list Event
}.

Definition M (A : Type) : Type := HState -> Completion A * HState.

#[global] Instance M_ret : MRet M := fun A a st => (Normal a, st).
#[global] Instance M_bind : MBind M := fun A B f m st =>
  match m st with
  | (Normal a, st') => f a st'
  | (Throw e, st') => (Throw e, st')
  end.

Definition throw {A : Type} (e : JsError) : M A := fun st => (Throw e, st).

Definition emit (ev : Event) : M unit := fun st =>
  (Normal tt, mkHState (container st) (claim_var st) (trace st ++ [ev])).

(** [await p] for a promise whose settlement is known. *)
Definition await {A : Type} (p : Completion A) : M A := fun st => (p, st).

(** [try { body } catch (err) { handler(err) } finally { fin }]: the
    [finally] block runs whatever the completion of the first two blocks
    is, and a throw inside it replaces that completion. *)
Definition try_catch_finally {A : Type}
    (body : M A) (handler : JsError -> M A) (fin : M unit) : M A := fun st =>
  let '(c1, st1) :=
    match body st with
    | (Throw e, st') => handler e st'
    | r => r
    end in
  match fin st1 with
  | (Normal _, st2) => (c1, st2)
  | (Throw e', st2) => (Throw e', st2)
  end.

(** [Container.bind(Logger).factory(verboseLoggerFactory(debug))] *)
Definition bind_logger (debug : JsValue) : M unit := fun st =>
  emit (EBindLogger debug)
    (mkHState (mkContainer (VerboseLogger debug) (bound_api (container st)))
              (claim_var st) (trace st)).

(** [Container.bind(GitOpsModuleApi).to(impl)] *)
Definition bind_api (impl : GitOpsModuleApi) : M unit := fun st =>
  emit (EBindApi impl)
    (mkHState (mkContainer (bound_logger (container st)) impl)
              (claim_var st) (trace st)).

(** [Container.get(Logger)] *)
Definition get_logger : M Logger := fun st =>
  (Normal (bound_logger (container st)),
   mkHState (container st) (claim_var st) (trace st ++ [EGetLogger])).

(** [Container.get(GitOpsModuleApi)] *)
Definition get_api : M GitOpsModuleApi := fun st =>
  let impl := bound_api (container st) in
  (Normal impl, mkHState (container st) (claim_var st) (trace st ++ [EGetApi impl])).

(** [claim = c] *)
Definition assign_claim (c : ClaimedMutex) : M unit := fun st =>
  (Normal tt, mkHState (container st) (Some c) (trace st)).

(** Reading the variable [claim]; [None] is [undefined]. *)
Definition read_claim : M (option ClaimedMutex) := fun st =>
  (Normal (claim_var st), st).

(** The [TypeError] of a method call on [undefined]. *)
Definition release_of_undefined : JsError :=
  TypeError "Cannot read properties of undefined (reading 'release')".

(** ** [src/commands/support/gitops-module-common.ts] *)

(** [function createMutex(lock, tmpDir, scope, logger): IMutex].  [lock] and
    [tmpDir] are whatever [argv.lock] and [argv.tmpDir] hold at run time. *)
Definition createMutex (lock tmpDir : JsValue) (scope : string) (logger : Logger) : IMutex :=
  if strict_eq_str lock "pessimistic" || strict_eq_str lock "p"
  then Mutex tmpDir scope logger
  else NoopMutex.

(** [{name: argv.name, namespace: argv.namespace, contentDir: argv.contentDir}] *)
Definition claim_key (argv : JsObject) : MutexKey :=
  mkMutexKey (field argv "name") (field argv "namespace") (field argv "contentDir").

(** [export const commonHandler = async (argv) => { ... }] *)
Definition commonHandler (w : World) (argv : JsObject) : M unit :=
  bind_logger (field argv "debug");;
  (if strict_eq_str (field argv "lock") "branch" || strict_eq_str (field argv "lock") "b"
   then bind_api GitopsModulePRImpl
   else mret tt);;
  logger ← get_logger;
  let mutex := createMutex (field argv "lock") (field argv "tmpDir") "gitops-module" logger in
  try_catch_finally
    (emit (EClaim mutex (claim_key argv));;
     c ← await (mutex_claim w mutex (claim_key argv));
     assign_claim c;;
     service ← get_api;
     emit (EPopulate service argv);;
     await (populate w service argv))
    (fun err => emit (EConsoleError "Error running populate" err))
    (c ← read_claim;
     match c with
     | None => throw release_of_undefined
     | Some c => emit (ERelease c);; await (claim_release w c)
     end).

(** A call of the handler: [claim] is declared and not yet assigned, the
    trace is empty, the container is as the application left it. *)
Definition initial (k : Container) : HState := mkHState k None [].

Definition run_commonHandler (w : World) (k : Container) (argv : JsObject)
  : Completion unit * HState :=
  commonHandler w argv (initial k).

(** The mutex the handler creates for [argv]. *)
Definition handler_mutex (argv : JsObject) : IMutex :=
  createMutex (field argv "lock") (field argv "tmpDir") "gitops-module"
              (VerboseLogger (field argv "debug")).

(** The implementation the handler resolves for [argv]. *)
Definition handler_api (k : Container) (argv : JsObject) : GitOpsModuleApi :=
  if strict_eq_str (field argv "lock") "branch" || strict_eq_str (field argv "lock") "b"
  then GitopsModulePRImpl
  else bound_api k.

Definition is_release (ev : Event) : bool :=
  match ev with ERelease _ => true | _ => false end.

(** How many times [release()] was called. *)
Definition release_count (t : list Event) : nat := length (filter is_release t).

(** Example worlds. *)
Definition quiet_world : World :=
  mkWorld (fun _ _ _ => Normal tt) (fun _ _ _ => Normal tt) (fun _ _ => Normal tt).

Definition lock_timeout : JsError := Thrown "LockTimeoutError" "timed out waiting for lock".
Definition materialization_error : JsError := Thrown "MaterializationError" "payload content missing".

Definition locked_world : World :=
  mkWorld (fun _ _ _ => Throw lock_timeout) (fun _ _ _ => Normal tt) (fun _ _ => Normal tt).

Definition failing_populate_world : World :=
  mkWorld (fun _ _ _ => Normal tt) (fun _ _ _ => Normal tt)
          (fun _ _ => Throw materialization_error).

Definition default_container : Container := mkContainer (VerboseLogger JUndefined) ConfiguredImpl.

Definition argv_of (lock : string) : JsObject :=
  {[ "name" := JStr "svc-a"; "namespace" := JStr "default";
     "contentDir" := JStr "/payload"; "lock" := JStr lock;
     "tmpDir" := JStr "/tmp/gitops-module" ]}.


(** *** What a run of [commonHandler] does *)

Definition wants_branch (argv : JsObject) : bool :=
  strict_eq_str (field argv "lock") "branch" || strict_eq_str (field argv "lock") "b".

(** The container once the two [Container.bind] statements have run. *)
Definition handler_container (k : Container) (argv : JsObject) : Container :=
  mkContainer (VerboseLogger (field argv "debug")) (handler_api k argv).

(** The calls made up to and including [mutex.claim]. *)
Definition handler_prefix (argv : JsObject) : list Event :=
  EBindLogger (field argv "debug")
  :: (if wants_branch argv then [EBindApi GitopsModulePRImpl] else [])
  ++ [EGetLogger; EClaim (handler_mutex argv) (claim_key argv)].

(** What [catch] prints for the completion of [populate]. *)
Definition populate_log (p : Completion unit) : list Event :=
  match p with
  | Normal _ => []
  | Throw e => [EConsoleError "Error running populate" e]
  end.

(** The completion of a [finally] block that only awaits [release()],
    after a [try]/[catch] that completed normally. *)
Definition settle_as (r : Completion unit) : Completion unit :=
  match r with
  | Normal _ => Normal tt
  | Throw e => Throw e
  end.


(** ** [src/services/gitops-module/gitops-module.api.ts] *)

(** The declaration that comes first in the file; its options type has
    [autoMerge], [rateLimit], [delete], [ignoreDiff] and [type]. *)
Module GitopsModuleApi.

(** [export enum GitOpsLayer] *)
Inductive GitOpsLayer : Type :=
| infrastructure
| services
| applications.

(** The string each member is initialised with. *)
Definition value (l : GitOpsLayer) : string :=
  match l with
  | infrastructure => "infrastructure"
  | services => "services"
  | applications => "applications"
  end.

Definition members : list GitOpsLayer := [infrastructure; services; applications].

End GitopsModuleApi.

(** The declaration that comes second in the file, without those options. *)
Module GitopsModuleApi2.

(** [export enum GitOpsLayer] *)
Inductive GitOpsLayer : Type :=
| infrastructure
| service
| application.

Definition value (l : GitOpsLayer) : string :=
  match l with
  | infrastructure => "infrastructure"
  | service => "service"
  | application => "application"
  end.

Definition members : list GitOpsLayer := [infrastructure; service; application].

End GitopsModuleApi2.

(** ** The yargs command modules *)

Module Yargs.

(** One entry of the object literal that declares an option. *)
Inductive Setting : Type :=
| alias (names : list string)
| description (text : string)
| describe (text : string)
| type (name : string)
| demandOption (b : bool)
| default (v : JsValue)
| choices (vs : list JsValue)
| conflicts (key : string)
| require (b : bool).

(** [.positional(key, {...})] or [.option(key, {...})]. *)
Inductive Kind : Type := positional | option.

Record Declared : Type := declare {
  kind : Kind;
  key : string;
  settings : list Setting
}.

Fixpoint default_of (o : list Setting) : JsValue :=
  match o with
  | [] => JUndefined
  | default v :: _ => v
  | _ :: o' => default_of o'
  end.

Fixpoint choices_of (o : list Setting) : Datatypes.option (list JsValue) :=
  match o with
  | [] => None
  | choices vs :: _ => Some vs
  | _ :: o' => choices_of o'
  end.

Fixpoint conflicts_of (o : list Setting) : Datatypes.option string :=
  match o with
  | [] => None
  | conflicts k :: _ => Some k
  | _ :: o' => conflicts_of o'
  end.

Fixpoint demanded (o : list Setting) : bool :=
  match o with
  | [] => false
  | demandOption b :: _ => b
  | require b :: _ => b
  | _ :: o' => demanded o'
  end.

(** The declaration of [k], if the builder made one. *)
Fixpoint declared (ds : list Declared) (k : string) : Datatypes.option (list Setting) :=
  match ds with
  | [] => None
  | d :: ds' => if String.eqb (key d) k then Some (settings d) else declared ds' k
  end.

(** The choices and the default that the builder declares for [k]. *)
Definition choices_for (ds : list Declared) (k : string) : Datatypes.option (list JsValue) :=
  match declared ds k with
  | Some o => choices_of o
  | None => None
  end.

Definition default_for (ds : list Declared) (k : string) : JsValue :=
  match declared ds k with
  | Some o => default_of o
  | None => JUndefined
  end.

Definition conflicts_for (ds : list Declared) (k : string) : Datatypes.option string :=
  match declared ds k with
  | Some o => conflicts_of o
  | None => None
  end.

(** [argv[k] !== undefined] *)
Definition defined (argv : JsObject) (k : string) : bool :=
  negb (bool_decide (field argv k = JUndefined)).

(** The first default other than [undefined] among the declarations of [k]. *)
Fixpoint first_default (ds : list Declared) (k : string) : JsValue :=
  match ds with
  | [] => JUndefined
  | d :: ds' =>
      if String.eqb (key d) k then
        match default_of (settings d) with
        | JUndefined => first_default ds' k
        | v => v
        end
      else first_default ds' k
  end.

End Yargs.

(** The argument parser is the yargs library, which is not among the
    sources; the commands rely on it for defaults, [choices], [conflicts]
    and demanded options. *)
Module YargsParser.
Import Yargs.

Inductive ParseError : Type :=
| MissingRequired (k : string)
| InvalidChoice (k : string) (given : JsValue)
| MutuallyExclusive (k1 k2 : string).

(** Modelled from the spec: yargs is not among the sources.  An option
    that was not supplied takes its declared default ("default `branch`,
    overridable via `LOCK` env var"). *)
Definition with_defaults (ds : list Declared) (supplied : JsObject) : JsObject :=
  fold_left
    (fun argv d =>
       if defined argv (key d) then argv
       else match default_of (settings d) with
            | JUndefined => argv
            | v => <[key d := v]> argv
            end)
    ds supplied.

(** Modelled from the spec: yargs is not among the sources.  A demanded
    option must be set, a value of an option with [choices] must be one of
    them ("`--lock` ∈ {optimistic, pessimistic, branch, o, p, b}"), and two
    options declared as conflicting must not both be set ("mutually
    exclusive"). *)
Definition check (argv : JsObject) (d : Declared) : list ParseError :=
  (if demanded (settings d) && negb (defined argv (key d))
   then [MissingRequired (key d)] else [])
  ++ match choices_of (settings d) with
     | Some vs =>
         if defined argv (key d) && negb (bool_decide (field argv (key d) ∈ vs))
         then [InvalidChoice (key d) (field argv (key d))] else []
     | None => []
     end
  ++ match conflicts_of (settings d) with
     | Some k' =>
         if defined argv (key d) && defined argv k'
         then [MutuallyExclusive (key d) k'] else []
     | None => []
     end.

Definition validate (ds : list Declared) (argv : JsObject) : list ParseError :=
  flat_map (check argv) ds.

Definition parse (ds : list Declared) (supplied : JsObject) : ParseError + JsObject :=
  let argv := with_defaults ds supplied in
  match validate ds argv with
  | err :: _ => inl err
  | [] => inr argv
  end.

(** Modelled from the spec: yargs is not among the sources.  The handler
    is called with the parsed arguments, and is not called at all when
    parsing fails ("rejected before any network/filesystem activity
    occurs", "enforced before this component runs"). *)
Definition run (ds : list Declared) (handler : JsObject -> M unit)
    (k : Container) (supplied : JsObject) : ParseError + Completion unit * HState :=
  match parse ds supplied with
  | inl err => inl err
  | inr argv => inr (handler argv (initial k))
  end.

End YargsParser.

(** What the builders read from outside their file: the environment, and
    [defaultAutoMerge()] and [defaultRateLimit()], which they import from
    [./support/gitops-module-common] and whose definitions are not among
    the sources. *)
Record BuilderEnv : Type := mkBuilderEnv {
  env : gmap string string;
  defaultAutoMerge : JsValue;
  defaultRateLimit : JsValue
}.

(** *** [src/commands/gitops-namespace.ts] *)

Module GitopsNamespace.
Import Yargs.

Definition command : string := "gitops-namespace [name]".
Definition desc : string := "Populates the gitops repo with the configuration for a namespace".

(** [export const builder = (yargs: Argv<any>) => yargs.positional(...).option(...)...] *)
Definition builder (b : BuilderEnv) : list Declared := [
  declare positional "name" [
    description "The name of the module that will be added to GitOps";
    type "string";
    demandOption true ];
  declare option "contentDir" [
    alias ["c"; "content"];
    description "The directory or url where the payload content has been placed. If not provided defaults to current working directory.";
    type "string";
    demandOption false ];
  declare option "namespace" [
    alias ["n"];
    type "string";
    describe "Namespace where the secret should be created";
    demandOption false;
    default (JStr "default") ];
  declare option "gitopsConfigFile" [
    describe "Name of yaml or json file that contains the gitops config values";
    type "string";
    conflicts "bootstrapRepoUrl";
    demandOption false ];
  declare option "bootstrapRepoUrl" [
    describe "Url of the bootstrap repo that contains the gitops config yaml";
    type "string";
    conflicts "gitopsConfigFile";
    demandOption false ];
  declare option "gitopsCredentialsFile" [
    describe "Name of yaml or json file that contains the gitops credentials";
    type "string";
    conflicts "token";
    demandOption false ];
  declare option "token" [
    describe "Git personal access token to access gitops repo";
    type "string";
    conflicts "gitopsCredentialsFile";
    demandOption false ];
  declare option "applicationPath" [
    describe "The path within the payload directory structure where the payload config should be placed. If not provided will default to `name`";
    type "string";
    demandOption false ];
  declare option "branch" [
    describe "The branch where the payload has been deployed";
    demandOption false ];
  declare option "serverName" [
    describe "The name of the cluster. If not provided will use `default`";
    demandOption false ];
  declare option "valueFiles" [
    describe "Comma-separated list of value files that should be applied to the Argo CD application if using a helm chart";
    demandOption false ];
  declare option "lock" [
    describe "Git repo locking style";
    demandOption false;
    choices [JStr "optimistic"; JStr "pessimistic"; JStr "branch"; JStr "o"; JStr "p"; JStr "b"];
    default (js_or (process_env (env b) "LOCK") (JStr "branch")) ];
  declare option "autoMerge" [
    describe "Flag indicating that the branch/PR should be automatically merged. Only applies if lock strategy is branch";
    type "boolean";
    demandOption false;
    default (defaultAutoMerge b) ];
  declare option "delete" [
    alias ["d"];
    describe "Flag indicating that the content should be deleted from the repo";
    type "boolean";
    demandOption false;
    default (JBool false) ];
  declare option "ignoreDiff" [
    describe "JSON string containing the ignoreDifferences block for the ArgoCD application. The value can also be passed via a IGNORE_DIFF environment variable";
    type "string";
    demandOption false;
    default (process_env (env b) "IGNORE_DIFF") ];
  declare option "rateLimit" [
    describe "Flag indicating that the calls to the git api should be rate limited.";
    type "boolean";
    demandOption false;
    default (defaultRateLimit b) ];
  declare option "cascadingDelete" [
    describe "Flag indicating that the GitOps application should be configured to perform a cascading delete.";
    type "boolean";
    demandOption false;
    default (JBool true) ];
  declare option "tmpDir" [
    describe "The temp directory where the gitops repo should be checked out";
    type "string";
    default (JStr "/tmp/gitops-module/");
    require false ];
  declare option "debug" [
    describe "Turn on debug logging";
    type "boolean";
    require false ]
].

(** [Object.assign({}, argv, {isNamespace: true, layer: 'infrastructure'})] *)
Definition handler_args (argv : JsObject) : JsObject :=
  object_assign argv
    {[ "isNamespace" := JBool true; "layer" := JStr "infrastructure" ]}.

(** [exports.handler = async (argv) => { ...; await commonHandler(args); }] *)
Definition handler (w : World) (argv : JsObject) : M unit :=
  commonHandler w (handler_args argv).

End GitopsNamespace.

(** *** [src/commands/gitops-module.ts] *)

Module GitopsModule.
Import Yargs.

Definition command : string := "gitops-module [name]".
Definition desc : string :=
  "Populates the gitops repo with the provided module contents and configures the ArgoCD application".

(** [export const builder = (yargs: Argv<any>) => yargs.positional(...).options({...})] *)
Definition builder (b : BuilderEnv) : list Declared := [
  declare positional "name" [
    description "The name of the module that will be added to GitOps";
    type "string";
    demandOption true ];
  declare option "contentDir" [
    alias ["c"; "content"];
    description "The directory or url where the payload content has been placed. If not provided defaults to current working directory.";
    type "string";
    demandOption false ];
  declare option "namespace" [
    alias ["n"];
    type "string";
    describe "Namespace where the secret should be created";
    demandOption true ];
  declare option "layer" [
    alias ["l"];
    describe "The gitops layer where the configuration will be deployed (infrastructure, services, applications)";
    choices [JStr (GitopsModuleApi.value GitopsModuleApi.infrastructure);
             JStr (GitopsModuleApi.value GitopsModuleApi.services);
             JStr (GitopsModuleApi.value GitopsModuleApi.applications)];
    demandOption false ];
  declare option "gitopsConfigFile" [
    describe "Name of yaml or json file that contains the gitops config values";
    type "string";
    conflicts "bootstrapRepoUrl";
    demandOption false ];
  declare option "bootstrapRepoUrl" [
    describe "Url of the bootstrap repo that contains the gitops config yaml";
    type "string";
    conflicts "gitopsConfigFile";
    demandOption false ];
  declare option "gitopsCredentialsFile" [
    describe "Name of yaml or json file that contains the gitops credentials";
    type "string";
    conflicts "token";
    demandOption false ];
  declare option "token" [
    describe "Git personal access token to access gitops repo";
    type "string";
    conflicts "gitopsCredentialsFile";
    demandOption false ];
  declare option "applicationPath" [
    describe "The path within the payload directory structure where the payload config should be placed. If not provided will default to `name`";
    type "string";
    demandOption false ];
  declare option "branch" [
    describe "The branch where the payload has been deployed";
    demandOption false ];
  declare option "type" [
    describe "The type of component added to the GitOps repo.";
    choices [JStr "base"; JStr "operators"; JStr "instances"];
    demandOption false;
    default (JStr "base") ];
  declare option "serverName" [
    describe "The name of the cluster. If not provided will use `default`";
    demandOption false ];
  declare option "valueFiles" [
    describe "Comma-separated list of value files that should be applied to the Argo CD application if using a helm chart";
    demandOption false ];
  declare option "lock" [
    describe "Git repo locking style";
    demandOption false;
    choices [JStr "optimistic"; JStr "pessimistic"; JStr "branch"; JStr "o"; JStr "p"; JStr "b"];
    default (js_or (process_env (env b) "LOCK") (JStr "branch")) ];
  declare option "autoMerge" [
    describe "Flag indicating that the branch/PR should be automatically merged. Only applies if lock strategy is branch";
    type "boolean";
    demandOption false;
    default (defaultAutoMerge b) ];
  declare option "delete" [
    alias ["d"];
    describe "Flag indicating that the content should be deleted from the repo";
    type "boolean";
    demandOption false;
    default (JBool false) ];
  declare option "ignoreDiff" [
    describe "JSON string containing the ignoreDifferences block for the ArgoCD application. The value can also be passed via a IGNORE_DIFF environment variable";
    type "string";
    demandOption false;
    default (process_env (env b) "IGNORE_DIFF") ];
  declare option "rateLimit" [
    describe "Flag indicating that the calls to the git api should be rate limited.";
    type "boolean";
    demandOption false;
    default (defaultRateLimit b) ];
  declare option "cascadingDelete" [
    describe "Flag indicating that the GitOps application should be configured to perform a cascading delete.";
    type "boolean";
    demandOption false;
    default (JBool true) ];
  declare option "tmpDir" [
    describe "The temp directory where the gitops repo should be checked out";
    type "string";
    default (JStr "/tmp/gitops-module");
    require false ];
  declare option "debug" [
    describe "Turn on debug logging";
    type "boolean";
    require false ]
].

(** [exports.handler = async (argv) => { await commonHandler(argv); }] *)
Definition handler (w : World) (argv : JsObject) : M unit :=
  commonHandler w argv.

End GitopsModule.

(** An environment for the examples: [LOCK] is not set. *)
Definition plain_env : BuilderEnv := mkBuilderEnv ∅ (JBool false) (JBool false).

(** ** [src/services/namespace/namespace.ts] *)

Module NamespaceImpl.

(** [QueryString] and [ListOptions] of [api/kubectl], as far as they are
    filled in here. *)
Record QueryString : Type := mkQueryString {
  labelSelector : string
}.

Record ListOptions : Type := mkListOptions {
  namespace : string;
  qs : option QueryString
}.

(** The injected resource clients on which [copyAll] is called. *)
Inductive Resource : Type :=
| configMaps
| secrets
| tektonPipelines.

(** What a copy method returns: [undefined] from the bare [return], or the
    promise of the one [copyAll] call it makes. *)
Inductive Returned : Type :=
| ReturnUndefined
| ReturnCopyAll (client : Resource) (options : ListOptions) (toNamespace : string).

(** The [copyAll] calls behind a returned value. *)
Definition copy_calls (r : Returned) : list (Resource * ListOptions * string) :=
  match r with
  | ReturnUndefined => []
  | ReturnCopyAll client options toNamespace => [(client, options, toNamespace)]
  end.

(** [async copyConfigMaps(toNamespace, fromNamespace)] *)
Definition copyConfigMaps (toNamespace fromNamespace : string) : Returned :=
  if String.eqb toNamespace fromNamespace then ReturnUndefined
  else
    let qs := mkQueryString "group=catalyst-tools" in
    ReturnCopyAll configMaps (mkListOptions fromNamespace (Some qs)) toNamespace.

(** [async copySecrets(toNamespace, fromNamespace)] *)
Definition copySecrets (toNamespace fromNamespace : string) : Returned :=
  if String.eqb toNamespace fromNamespace then ReturnUndefined
  else
    let qs := mkQueryString "group=catalyst-tools" in
    ReturnCopyAll secrets (mkListOptions fromNamespace (Some qs)) toNamespace.

(** [async copyPipelines(toNamespace, fromNamespace)] *)
Definition copyPipelines (toNamespace fromNamespace : string) : Returned :=
  if String.eqb toNamespace fromNamespace then ReturnUndefined
  else ReturnCopyAll tektonPipelines (mkListOptions fromNamespace None) toNamespace.

(** [SecurityContextContraints], as far as it is read here. *)
Record SecurityContextContraints : Type := mkSCC {
  metadata_name : string;
  users : list string
}.

(** Calls on the [sccs] client. *)
Inductive SccCall : Type :=
| SccGet (name : string)
| SccUpdate (name : string) (body : SecurityContextContraints).

(** The cluster as [sccs] sees it, and the calls made on it. *)
Record Cluster : Type := mkCluster {
  scc_store : gmap string SecurityContextContraints;
  scc_calls : list SccCall
}.

Definition K (A : Type) : Type := Cluster -> Completion A * Cluster.

(** [this.sccs.get(name)].  The client of [api/kubectl] is not among the
    sources: the cluster is taken as a store of objects by name, from which
    [get] reads; its promise rejects when there is none of that name. *)
Definition sccs_get (name : string) : K SecurityContextContraints := fun c =>
  let c' := mkCluster (scc_store c) (scc_calls c ++ [SccGet name]) in
  match scc_store c !! name with
  | Some scc => (Normal scc, c')
  | None => (Throw (Thrown "NotFound" name), c')
  end.

(** How the promise of [this.sccs.update(name, {body})] settles on a
    cluster, which the sources do not tell: it is a parameter of every
    definition that updates. *)
Definition UpdateSettles : Type :=
  Cluster -> string -> SecurityContextContraints -> Completion unit.

(** [this.sccs.update(name, {body})].  The client of [api/kubectl] is not
    among the sources: whether its promise resolves or rejects is the
    parameter [settles]; when it resolves the object of that name has been
    replaced by [body], and when it rejects the store is as it was. *)
Definition sccs_update (settles : UpdateSettles) (name : string)
    (body : SecurityContextContraints) : K unit := fun c =>
  match settles c name body with
  | Normal _ =>
      (Normal tt,
       mkCluster (<[name := body]> (scc_store c)) (scc_calls c ++ [SccUpdate name body]))
  | Throw e =>
      (Throw e, mkCluster (scc_store c) (scc_calls c ++ [SccUpdate name body]))
  end.

(** [users.includes(x)] *)
Definition includes (l : list string) (x : string) : bool :=
  existsb (String.eqb x) l.

(** The value of the template literal [pipelineSA]. *)
Definition pipelineSA (namespace : string) : string :=
  ("system:serviceaccount:" ++ namespace ++ ":pipeline")%string.

(** [async setupTektonPipelineSA(namespace)].  [users] is the array of
    [privilegedSCC] itself, so the [push] is seen in the body of the update. *)
Definition setupTektonPipelineSA (settles : UpdateSettles) (namespace : string)
  : K unit := fun c =>
  match sccs_get "privileged" c with
  | (Throw e, c1) => (Throw e, c1)
  | (Normal privilegedSCC, c1) =>
      let users := users privilegedSCC in
      if negb (includes users (pipelineSA namespace)) then
        let privilegedSCC' :=
          mkSCC (metadata_name privilegedSCC) (users ++ [pipelineSA namespace]) in
        sccs_update settles (metadata_name privilegedSCC') privilegedSCC' c1
      else (Normal tt, c1)
  end.



(** An example cluster, a client whose updates resolve and one whose
    updates reject. *)
Definition example_cluster : Cluster :=
  mkCluster {[ "privileged" := mkSCC "privileged" ["system:admin"] ]} [].

Definition accepted : UpdateSettles := fun _ _ _ => Normal tt.

End NamespaceImpl.

(** ** Further observations on a run of [commonHandler] *)

Definition is_populate (ev : Event) : bool :=
  match ev with EPopulate _ _ => true | _ => false end.

Definition is_console_error (ev : Event) : bool :=
  match ev with EConsoleError _ _ => true | _ => false end.

(** How many times [service.populate] and [console.error] were called. *)
Definition populate_count (t : list Event) : nat := length (List.filter is_populate t).
Definition console_error_count (t : list Event) : nat :=
  length (List.filter is_console_error t).

(** ** [src/services/namespace/namespace.ts]: secrets and service accounts *)

(** The regular expressions of the JavaScript runtime, as far as this file
    uses them.  Every [RegExp] object here is created for one call, so the
    [lastIndex] of the [g] flag never carries over. *)
Record RegExpEngine : Type := mkRegExpEngine {
  (** [new RegExp(pattern, 'g').test(s)], as [re_test pattern s] *)
  re_test : string -> string -> bool;
  (** [s.replace(new RegExp(pattern, 'g'), replacement)] *)
  re_replace : string -> string -> string -> string;
  (** [!!s.match(pattern)], as [re_match s pattern] *)
  re_match : string -> string -> bool
}.

Module NamespaceSecrets.

(** [function any(list, test)]: [list.filter(test).length > 0] *)
Definition any (list : list string) (test : string -> bool) : bool :=
  (0 <? length (List.filter test list))%nat.

(** [function first(list, test)] *)
Definition first (list : list string) (test : string -> bool) : Completion string :=
  match List.filter test list with
  | [] => Throw (Thrown "Error" "List is empty after applying filter")
  | x :: _ => Normal x
  end.

(** [KubeMetadata] and [Secret] of [api/kubectl]: the properties read here,
    and the others kept as they are. *)
Record KubeMetadata : Type := mkMetadata {
  md_name : string;
  md_others : gmap string string
}.

Record Secret : Type := mkSecret {
  metadata : KubeMetadata;
  data : option (gmap string string);
  secret_others : gmap string string
}.

(** [ListOptions<Secret>] with its [filter] and [map]. *)
Record SecretListOptions : Type := mkSecretListOptions {
  lo_namespace : string;
  lo_filter : Secret -> bool;
  lo_map : Secret -> Completion Secret
}.

(** The array [patterns] of [buildPullSecretListOptions]. *)
Definition patterns (fromNamespace : string) : list string :=
  [("(" ++ fromNamespace ++ "-.*icr-io)")%string;
   "([a-z]{2}-icr-io)"; "(icr-io)"; "(all-icr-io)"].

(** [buildPullSecretListOptions(fromNamespace): ListOptions<Secret>] *)
Definition buildPullSecretListOptions (re : RegExpEngine) (fromNamespace : string)
  : SecretListOptions :=
  let patterns := patterns fromNamespace in
  let filter := fun secret : Secret =>
    any patterns (fun pattern => re_test re pattern (md_name (metadata secret))) in
  let mapMetadata := fun metadata : KubeMetadata =>
    match first patterns (fun pattern => re_test re pattern (md_name metadata)) with
    | Throw e => Throw e
    | Normal pattern =>
        Normal (mkMetadata (re_replace re pattern (md_name metadata) "$1")
                           (md_others metadata))
    end in
  let map := fun secret : Secret =>
    match mapMetadata (metadata secret) with
    | Throw e => Throw e
    | Normal metadata' => Normal (mkSecret metadata' (data secret) (secret_others secret))
    end in
  mkSecretListOptions fromNamespace filter map.

(** An entry [{name}] of [secrets] or [imagePullSecrets].  It is an object:
    [object_id] stands for its identity, which is what [Array.includes]
    compares. *)
Record SecretRef : Type := mkSecretRef {
  object_id : nat;
  ref_name : string
}.

(** [ServiceAccount] of [api/kubectl], as far as it is read here. *)
Record ServiceAccount : Type := mkServiceAccount {
  sa_name : string;
  sa_namespace : string;
  secrets : option (list SecretRef);
  imagePullSecrets : option (list SecretRef)
}.

(** The [reduce] of [getServiceAccountSecretNames]: [current] is pushed
    unless [result.includes(current)]. *)
Definition push_new (result : list string) (current : string) : list string :=
  if NamespaceImpl.includes result current then result else result ++ [current].

(** [getServiceAccountSecretNames(serviceAccount = {})]; [None] is a call
    without the argument. *)
Definition getServiceAccountSecretNames (serviceAccount : option ServiceAccount)
  : list string :=
  let serviceAccountSecrets :=
    ([] ++ default [] (serviceAccount ≫= secrets))
    ++ default [] (serviceAccount ≫= imagePullSecrets) in
  fold_left push_new (map ref_name serviceAccountSecrets) [].

(** [secrets.includes(secret)] on objects: the same object, not the same
    name. *)
Definition includes_object (l : list SecretRef) (x : SecretRef) : bool :=
  existsb (fun y => Nat.eqb (object_id y) (object_id x)) l.

(** The object literals [{name: secret.metadata.name}] that [map] creates,
    one new object for each element; [next] is the first identity not yet
    in use. *)
Fixpoint new_refs (next : nat) (names : list string) : list SecretRef :=
  match names with
  | [] => []
  | n :: names' => mkSecretRef next n :: new_refs (S next) names'
  end.

(** [listMatchingSecrets(pullSecretPattern, namespace)], given what
    [this.secrets.list({namespace})] resolved to. *)
Definition listMatchingSecrets (re : RegExpEngine) (listed : list Secret)
    (pullSecretPattern : string) (next : nat) : list SecretRef :=
  new_refs next
    (map (fun secret => md_name (metadata secret))
         (List.filter (fun secret => re_match re (md_name (metadata secret)) pullSecretPattern)
                      listed)).

(** The [reduce] of [updateServiceAccountWithPullSecretsMatchingPattern]. *)
Definition push_new_object (secrets : list SecretRef) (secret : SecretRef)
  : list SecretRef :=
  if negb (includes_object secrets secret) then secrets ++ [secret] else secrets.

(** [updateServiceAccountWithPullSecretsMatchingPattern(serviceAccount,
    pullSecretPattern)], given what [this.secrets.list] resolved to. *)
Definition updateServiceAccountWithPullSecretsMatchingPattern
    (re : RegExpEngine) (listed : list Secret) (serviceAccount : ServiceAccount)
    (pullSecretPattern : string) (next : nat) : ServiceAccount :=
  let pullSecrets := listMatchingSecrets re listed pullSecretPattern next in
  mkServiceAccount (sa_name serviceAccount) (sa_namespace serviceAccount)
    (secrets serviceAccount)
    (Some (fold_left push_new_object pullSecrets
                     (default [] (imagePullSecrets serviceAccount)))).

(** Every object of the account was created before [next]. *)
Definition allocated_before (next : nat) (serviceAccount : ServiceAccount) : Prop :=
  Forall (fun r => object_id r < next) (default [] (imagePullSecrets serviceAccount)).

(** An engine for the examples: a pattern matches the names that contain
    ["icr-io"], and the replacement keeps the name. *)
Fixpoint contains (sub s : string) : bool :=
  String.prefix sub s
  || match s with
     | EmptyString => false
     | String _ s' => contains sub s'
     end.

Definition example_engine : RegExpEngine :=
  mkRegExpEngine (fun _ s => contains "icr-io" s) (fun _ s _ => s)
                 (fun s _ => contains "icr-io" s).

End NamespaceSecrets.

(** ** [src/services/namespace/namespace.ts]: [create] *)

Module NamespaceCreate.
Import NamespaceImpl.

(** [NamespaceOptionsModel], as [create] destructures it. *)
Record NamespaceOptionsModel : Type := mkOptions {
  namespace : string;
  templateNamespace : string;
  serviceAccount : string;
  tekton : bool;
  argocd : bool;
  argocdNamespace : string
}.

(** [this.projects] and [this.namespaces]. *)
Inductive Manager : Type := projects | namespaces.

(** [RoleBinding] of [api/kubectl], as [grantPermissionToArgoCD] fills it. *)
Record RoleRef : Type := mkRoleRef {
  apiGroup : string;
  roleRef_kind : string;
  roleRef_name : string
}.

Record Subject : Type := mkSubject {
  subject_kind : string;
  subject_name : string
}.

Record RoleBinding : Type := mkRoleBinding {
  metadata_name : string;
  roleRef : RoleRef;
  subjects : list Subject
}.

(** Calls that leave [create], in the order they are made. *)
Inductive Call : Type :=
| GetClusterType (templateNamespace : string)
| NotifyStatus (status : string)
| Exists (manager : Manager) (namespace : string)
| Create (manager : Manager) (namespace : string)
| CreateRoleBinding (name : string) (body : RoleBinding) (namespace : string)
| CopyAll (client : Resource) (options : ListOptions) (toNamespace : string)
| Progress (label : string)
| Exec (command : string).

(** How the promises of the injected collaborators settle. *)
Record Kube : Type := mkKube {
  (** [this.clusterType.getClusterType(ns)], resolving to [{clusterType, serverUrl}] *)
  getClusterType : string -> Completion (string * string);
  (** [nsManager.exists(namespace)] *)
  manager_exists : Manager -> string -> Completion bool;
  (** [nsManager.create(namespace)] *)
  manager_create : Manager -> string -> Completion unit;
  (** [this.roleBindings.create(name, {body}, namespace)] *)
  roleBindings_create : string -> RoleBinding -> string -> Completion unit;
  (** [client.copyAll(options, toNamespace)] *)
  copyAll : Resource -> ListOptions -> string -> Completion unit;
  (** [progressBar(this.logger)(promise, label)], given how [promise] settles *)
  progress : Completion unit -> string -> Completion unit;
  (** [this.childProcess.exec(command)] *)
  exec : string -> Completion unit;
  (** [this.sccs.update(name, {body})] *)
  sccs_update_settles : UpdateSettles
}.

(** The cluster's security context constraints and the calls made. *)
Record State : Type := mkState {
  cluster : Cluster;
  calls : list Call
}.

Definition N (A : Type) : Type := State -> Completion A * State.

#[global] Instance N_ret : MRet N := fun A a st => (Normal a, st).
#[global] Instance N_bind : MBind N := fun A B f m st =>
  match m st with
  | (Normal a, st') => f a st'
  | (Throw e, st') => (Throw e, st')
  end.

(** A call on a collaborator, and the [await] of its promise. *)
Definition call {A : Type} (c : Call) (p : Completion A) : N A := fun st =>
  (p, mkState (cluster st) (calls st ++ [c])).

Definition notifyStatus (status : string) : N unit := call (NotifyStatus status) (Normal tt).

(** [throw error] *)
Definition throw_error {A : Type} (error : JsError) : N A := fun st => (Throw error, st).

(** [try { body } catch (error) { handler(error) }] *)
Definition try_catch {A : Type} (body : N A) (handler : JsError -> N A) : N A := fun st =>
  match body st with
  | (Throw e, st') => handler e st'
  | r => r
  end.

(** A method of [NamespaceImpl] that works on the security context
    constraints. *)
Definition on_cluster {A : Type} (m : K A) : N A := fun st =>
  let '(r, c) := m (cluster st) in (r, mkState c (calls st)).

(** The call of a copy method: it runs up to its [return], which hands back
    the promise of [copyAll] or [undefined]. *)
Definition start_copy (kube : Kube) (r : Returned) : N (Completion unit) :=
  match r with
  | ReturnUndefined => mret (Normal tt)
  | ReturnCopyAll client options toNamespace => fun st =>
      (Normal (copyAll kube client options toNamespace),
       mkState (cluster st) (calls st ++ [CopyAll client options toNamespace]))
  end.

(** [async grantPermissionToArgoCD(namespace, argocdNamespace)] *)
Definition grantPermissionToArgoCD (kube : Kube) (namespace argocdNamespace : string)
  : N unit :=
  let name := "argocd-admin" in
  let roleBinding :=
    mkRoleBinding name
      (mkRoleRef "rbac.authorization.k8s.io" "ClusterRole" "admin")
      [mkSubject "Group" ("system:serviceaccounts:" ++ argocdNamespace)%string] in
  call (CreateRoleBinding name roleBinding namespace)
       (roleBindings_create kube name roleBinding namespace).

(** [async setCurrentProject(namespace)] *)
Definition setCurrentProject (kube : Kube) (namespace : string) : N unit :=
  let command := ("kubectl config set-context --current --namespace=" ++ namespace)%string in
  call (Exec command) (exec kube command).

(** The statements of [create] that look for the namespace and create it. *)
Definition ensure_namespace (kube : Kube) (nsManager : Manager) (label namespace : string)
  : N unit :=
  notifyStatus ("Checking for existing " ++ label ++ ": " ++ namespace)%string;;
  found ← call (Exists nsManager namespace) (manager_exists kube nsManager namespace);
  if negb found then
    notifyStatus ("Creating " ++ label ++ ": " ++ namespace)%string;;
    call (Create nsManager namespace) (manager_create kube nsManager namespace)
  else mret tt.

(** The branch [if (argocd) { try { ... } catch (error) { ... } }]. *)
Definition argocd_branch (kube : Kube) (o : NamespaceOptionsModel) : N unit :=
  try_catch
    (notifyStatus ("Giving ArgoCD service accounts in " ++ argocdNamespace o
                   ++ " namespace permission to manage this namespace")%string;;
     grantPermissionToArgoCD kube (namespace o) (argocdNamespace o))
    (fun error => notifyStatus "  Error granting ArgoCD permission").

(** The statement [if (tekton) { try { ... } catch (error) { ...; throw error; } }]. *)
Definition tekton_statement (kube : Kube) (o : NamespaceOptionsModel) : N unit :=
  if tekton o then
    try_catch
      (notifyStatus "Adding privileged SCC to pipeline service account";;
       on_cluster (setupTektonPipelineSA (sccs_update_settles kube) (namespace o)))
      (fun error => notifyStatus "  Error adding SCC";; throw_error error)
  else mret tt.

(** The branch [else { ... }]: the two copies, then the pipeline account. *)
Definition copy_branch (kube : Kube) (o : NamespaceOptionsModel) : N unit :=
  p1 ← start_copy kube (copyConfigMaps (namespace o) (templateNamespace o));
  call (Progress "Copying ConfigMaps") (progress kube p1 "Copying ConfigMaps");;
  p2 ← start_copy kube (copySecrets (namespace o) (templateNamespace o));
  call (Progress "Copying Secrets") (progress kube p2 "Copying Secrets");;
  tekton_statement kube o.

(** The last statements of [create]. *)
Definition set_current (kube : Kube) (label namespace : string) : N string :=
  notifyStatus ("Setting current " ++ label ++ " to " ++ namespace)%string;;
  setCurrentProject kube namespace;;
  mret namespace.

(** [async create({namespace, templateNamespace, serviceAccount, tekton,
    argocd, argocdNamespace}, notifyStatus)] *)
Definition create (kube : Kube) (o : NamespaceOptionsModel) : N string :=
  ct ← call (GetClusterType (templateNamespace o))
            (getClusterType kube (templateNamespace o));
  let clusterType := fst ct in
  let nsManager := if String.eqb clusterType "openshift" then projects else namespaces in
  let label := if String.eqb clusterType "openshift" then "project" else "namespace" in
  ensure_namespace kube nsManager label (namespace o);;
  (if argocd o then argocd_branch kube o else copy_branch kube o);;
  set_current kube label (namespace o).

(** The statements of [create] before the last ones, with the label they
    leave for them. *)
Definition before_set_current (kube : Kube) (o : NamespaceOptionsModel) : N string :=
  ct ← call (GetClusterType (templateNamespace o))
            (getClusterType kube (templateNamespace o));
  let clusterType := fst ct in
  let nsManager := if String.eqb clusterType "openshift" then projects else namespaces in
  let label := if String.eqb clusterType "openshift" then "project" else "namespace" in
  ensure_namespace kube nsManager label (namespace o);;
  (if argocd o then argocd_branch kube o else copy_branch kube o);;
  mret label.

Definition run_create (kube : Kube) (o : NamespaceOptionsModel) (c : Cluster)
  : Completion string * State :=
  create kube o (mkState c []).

(** The same world, except for how [this.roleBindings.create] settles. *)
Definition with_roleBindings_create (kube : Kube)
    (f : string -> RoleBinding -> string -> Completion unit) : Kube :=
  mkKube (getClusterType kube) (manager_exists kube) (manager_create kube) f
         (copyAll kube) (progress kube) (exec kube) (sccs_update_settles kube).

(** The manager that [create] picks for a cluster type. *)
Definition manager_for (clusterType : string) : Manager :=
  if String.eqb clusterType "openshift" then projects else namespaces.

(** Every call that [m] makes passes [R]; [m] leaves the security context
    constraints as they are. *)
Definition only {A : Type} (R : Call -> bool) (m : N A) : Prop :=
  forall st, exists new,
    calls (snd (m st)) = calls st ++ new /\ forallb R new = true.

Definition keeps_cluster {A : Type} (m : N A) : Prop :=
  forall st, cluster (snd (m st)) = cluster st.

Definition is_copyAll (c : Call) : bool :=
  match c with CopyAll _ _ _ => true | _ => false end.

Definition is_create (c : Call) : bool :=
  match c with Create _ _ => true | _ => false end.

Definition is_exec (c : Call) : bool :=
  match c with Exec _ => true | _ => false end.

(** A world in which every call succeeds, on a plain Kubernetes cluster
    where the namespace does not exist yet; and one where the role binding
    cannot be created. *)
Definition calm_kube : Kube :=
  mkKube (fun _ => Normal ("kubernetes", "https://cluster"))
         (fun _ _ => Normal false) (fun _ _ => Normal tt)
         (fun _ _ _ => Normal tt) (fun _ _ _ => Normal tt)
         (fun p _ => p) (fun _ => Normal tt) accepted.

Definition forbidden : JsError := Thrown "Error" "Forbidden".

Definition no_rolebinding_kube : Kube :=
  mkKube (fun _ => Normal ("openshift", "https://cluster"))
         (fun _ _ => Normal true) (fun _ _ => Normal tt)
         (fun _ _ _ => Throw forbidden) (fun _ _ _ => Normal tt)
         (fun p _ => p) (fun _ => Normal tt) accepted.

(** A world in which the cluster type cannot be read. *)
Definition no_cluster_kube : Kube :=
  mkKube (fun _ => Throw forbidden)
         (fun _ _ => Normal false) (fun _ _ => Normal tt)
         (fun _ _ _ => Normal tt) (fun _ _ _ => Normal tt)
         (fun p _ => p) (fun _ => Normal tt) accepted.

Definition empty_cluster : Cluster := mkCluster ∅ [].

End NamespaceCreate.

(** ** [src/index.ts]: the [ibmcloud-image] script *)

Module IbmcloudImage.

(** The values of the properties of a yargs [Options] literal of this
    file: strings, booleans, and arrays of strings for [alias]. *)
Inductive OptionValue : Type :=
| OString (s : string)
| OBool (b : bool)
| OArray (l : list string).

#[global] Instance OptionValue_eq_dec : EqDecision OptionValue.
Proof. solve_decision. Defined.

(** ToBoolean; an array is an object and so always true. *)
Definition truthy_value (v : OptionValue) : bool :=
  match v with
  | OString s => negb (String.eqb s EmptyString)
  | OBool b => b
  | OArray _ => true
  end.

(** [const ENV_PROPERTIES: Array<EnvironmentOptionKeys>] *)
Definition ENV_PROPERTIES : list string :=
  ["APIKEY"; "RESOURCE_GROUP"; "REGION"; "REGISTRY_NAMESPACE"; "REGISTRY_URL";
   "CLUSTER_NAME"; "CHART_ROOT"; "IMAGE_BUILD_NUMBER"].

(** [process.env[key] || options.default]: [None] is [undefined]. *)
Definition env_or_default (env : gmap string string) (key : string)
    (options : gmap string OptionValue) : option OptionValue :=
  match env !! key with
  | Some s => if negb (String.eqb s EmptyString) then Some (OString s)
              else options !! "default"
  | None => options !! "default"
  end.

(** [function buildOptionWithEnvDefault(key, options)]; [Object.assign({},
    options, extra)] is the union that prefers [extra]. *)
Definition buildOptionWithEnvDefault (env : gmap string string) (key : string)
    (options : gmap string OptionValue) : gmap string (gmap string OptionValue) :=
  let defaultOption := env_or_default env key options in
  let extra : gmap string OptionValue :=
    match defaultOption with
    | Some d => if truthy_value d then {[ "default" := d ]} else ∅
    | None => ∅
    end in
  {[ key := extra ∪ options ]}.

(** [process.env[name] = value]: the environment holds strings, and an
    assignment converts the value to one; [undefined] becomes the string
    ['undefined'].  The [argv] entries read here are of options declared
    with [type: 'string']. *)
Definition env_assign (env : gmap string string) (name : string) (value : option string)
  : gmap string string :=
  <[name := default "undefined" value]> env.

(** [function extractEnvironmentProperties(argv)]: the [reduce] starts from
    [process.env] itself, which it changes and returns. *)
Definition extractEnvironmentProperties (env : gmap string string)
    (argv : gmap string string) : gmap string string :=
  fold_left (fun result name => env_assign result name (argv !! name)) ENV_PROPERTIES env.

(** [!!process.env[name]] *)
Definition env_set (env : gmap string string) (name : string) : bool :=
  match env !! name with
  | Some s => negb (String.eqb s EmptyString)
  | None => false
  end.

(** [function initializeArgumentsFromEnvironment(argv)]: [argv] as it is
    after the call. *)
Definition initializeArgumentsFromEnvironment (env : gmap string string)
    (argv : gmap string string) : gmap string string :=
  fold_left (fun argv name =>
               match env !! name with
               | Some s => <[name := s]> argv
               | None => argv
               end)
            (List.filter (env_set env) ENV_PROPERTIES) argv.

End IbmcloudImage.

(** ** [src/services/iteration-zero-config/module-selector/module-selector.variables.ts] *)

Module ModuleSelectorVariables.

(** The double quote and the line feed of the template literals. *)
Definition dq : string := String (Ascii.ascii_of_nat 34) EmptyString.
Definition nl : string := String (Ascii.ascii_of_nat 10) EmptyString.

(** [`${x}`] of a property that may be [undefined]. *)
Definition interpolate (x : option string) : string := default "undefined" x.

(** [!!x] of a property that holds a string or is [undefined]. *)
Definition truthy_string (x : option string) : bool :=
  match x with
  | Some s => negb (String.eqb s EmptyString)
  | None => false
  end.

(** [a || b] on such a property. *)
Definition or_else (a : option string) (b : string) : string :=
  match a with
  | Some s => if String.eqb s EmptyString then b else s
  | None => b
  end.

(** [moduleRef: {source: string}] and a [ModuleVariable], an object of
    [./module-selector.model] of which only the presence is looked at. *)
Record ModuleRef : Type := mkModuleRef { source : string }.
Record ModuleVariable : Type := mkModuleVariable { variable_fields : gmap string string }.

(** A value passed as [IBaseVariable]: the properties that the guards, the
    constructors and [asString] read; [None] is a property that is not
    there. *)
Record IBaseVariable : Type := mkIBaseVariable {
  name : string;
  description : option string;
  type : option string;
  scope : option string;
  alias : option string;
  defaultValue : option string;
  variableName : option string;
  moduleRef : option ModuleRef;
  moduleOutputName : option string;
  variable : option ModuleVariable
}.

(** The three classes, with the properties [Object.assign(this, values)]
    gave them. *)
Inductive BaseVariable : Type :=
| GlobalRefVariable (this : IBaseVariable)
| ModuleRefVariable (this : IBaseVariable)
| PlaceholderVariable (this : IBaseVariable).

(** [new ModuleRefVariable(values)]: [scope] is initialised to ['module']
    before the constructor assigns the values. *)
Definition new_ModuleRefVariable (values : IBaseVariable) : BaseVariable :=
  ModuleRefVariable
    (mkIBaseVariable (name values) (description values) (type values)
       (Some (default "module" (scope values)))
       (alias values) (defaultValue values) (variableName values) (moduleRef values)
       (moduleOutputName values) (variable values)).

(** [isModuleRefVariable], [isGlobalRefVariable], [isPlaceholderVariable];
    [None] is a [value] that is [undefined] or [null]. *)
Definition isModuleRefVariable (value : option IBaseVariable) : bool :=
  match value with
  | Some v => match moduleRef v with Some _ => true | None => false end
  | None => false
  end.

Definition isGlobalRefVariable (value : option IBaseVariable) : bool :=
  match value with
  | Some v => truthy_string (variableName v)
  | None => false
  end.

Definition isPlaceholderVariable (value : option IBaseVariable) : bool :=
  match value with
  | Some v => match variable v with Some _ => true | None => false end
  | None => false
  end.

(** [fromBaseVariable(variable)]; [stringify] is [JSON.stringify]. *)
Definition fromBaseVariable (stringify : option IBaseVariable -> string)
    (variable : option IBaseVariable) : Completion BaseVariable :=
  match variable with
  | Some v =>
      if isGlobalRefVariable variable then Normal (GlobalRefVariable v)
      else if isModuleRefVariable variable then Normal (new_ModuleRefVariable v)
      else if isPlaceholderVariable variable then Normal (PlaceholderVariable v)
      else Throw (Thrown "Error" ("Unknown variable type: " ++ stringify variable)%string)
  | None => Throw (Thrown "Error" ("Unknown variable type: " ++ stringify variable)%string)
  end.

(** The properties of an instance. *)
Definition fields (b : BaseVariable) : IBaseVariable :=
  match b with
  | GlobalRefVariable this | ModuleRefVariable this | PlaceholderVariable this => this
  end.

(** [asString(stages)] of the three classes; a stage is [{name: string}]. *)
Definition asString (b : BaseVariable) (stages : gmap string string) : Completion string :=
  match b with
  | ModuleRefVariable this =>
      match moduleRef this with
      | None => Throw (TypeError "Cannot read properties of undefined (reading 'source')")
      | Some ref =>
          match stages !! source ref with
          | None => Throw (TypeError "Cannot read properties of undefined (reading 'name')")
          | Some module_name =>
              Normal (name this ++ " = module." ++ module_name ++ "."
                      ++ interpolate (moduleOutputName this) ++ nl)%string
          end
      end
  | GlobalRefVariable this =>
      Normal (name this ++ " = var." ++ interpolate (variableName this) ++ nl)%string
  | PlaceholderVariable _ => Normal EmptyString
  end.

(** [class TerraformVariableImpl]: the property [name] and the three
    private ones behind the accessors. *)
Record TerraformVariableImpl : Type := mkTerraformVariable {
  tf_name : string;
  _type : option string;
  _description : option string;
  _value : option string
}.

(** [new TerraformVariableImpl({name, value, type, description})]: the
    assignment goes through the setters. *)
Definition new_TerraformVariableImpl (name : string) (value type description : option string)
  : TerraformVariableImpl :=
  mkTerraformVariable name type description value.

(** The getters [type], [value] and [description]. *)
Definition get_type (this : TerraformVariableImpl) : string := or_else (_type this) "string".
Definition get_value (this : TerraformVariableImpl) : string := or_else (_value this) EmptyString.
Definition get_description (this : TerraformVariableImpl) : string :=
  or_else (_description this) ("the value of " ++ tf_name this)%string.

(** [defaultValueProp()] *)
Definition defaultValueProp (this : TerraformVariableImpl) : string :=
  match _value this with
  | None => EmptyString
  | Some _ =>
      let value :=
        if String.eqb (get_type this) "bool" || String.eqb (get_type this) "number"
        then get_value this
        else (dq ++ get_value this ++ dq)%string in
      (nl ++ "  default = " ++ value)%string
  end.

(** [asString()] of [TerraformVariableImpl] *)
Definition terraform_asString (this : TerraformVariableImpl) : string :=
  ("variable " ++ dq ++ tf_name this ++ dq ++ " {" ++ nl
   ++ "  type = " ++ get_type this ++ nl
   ++ "  description = " ++ dq ++ get_description this ++ dq ++ defaultValueProp this ++ nl
   ++ "}" ++ nl)%string.

(** A [JSON.stringify] for the examples. *)
Definition stringify_name (v : option IBaseVariable) : string :=
  match v with
  | Some v => name v
  | None => "undefined"
  end.

Definition example_variable : IBaseVariable :=
  mkIBaseVariable "cluster_name" None None None None None (Some "name")
                  (Some (mkModuleRef "cluster")) (Some "id") None.

End ModuleSelectorVariables.

(** ** The [git [remote]] command *)

Module GitCommand.
Import Yargs.

Definition command : string := "git [remote]".
Definition desc : string :=
  "Launches a browser to the git repo url specified by the remote. If not provided remote defaults to origin".

(** [export const builder = (argv) => argv.positional('remote', {...})] *)
Definition builder : list Declared := [
  declare positional "remote" [
    require false;
    default (JStr "origin");
    describe "The name of the remote that should be opened" ]
].

(** What [getGitConfig] resolves to, as far as the handler reads it. *)
Record GitConfig : Type := mkGitConfig { url : Datatypes.option string }.

(** The service that [Container.get(GetGitParameters)] hands out. *)
Record GetGitParameters : Type := mkGetGitParameters {
  getGitConfig : JsValue -> Completion (Datatypes.option GitConfig)
}.

(** The collaborators: [Container.get(GetGitParameters)], which returns the
    service or throws; the guard [isNoGitRepoError]; and the call
    [open(url)], whose promise the handler does not await, so that only
    an error thrown by the call itself reaches the [catch] block. *)
Record Git : Type := mkGit {
  container_get : Completion GetGitParameters;
  isNoGitRepoError : JsError -> bool;
  open : string -> Completion unit
}.

(** What the handler does that can be seen from outside. *)
Inductive Output : Type :=
| ConsoleLog (message : string)
| Open (url : string).

(** [!gitConfig || !gitConfig.url] *)
Definition no_url (gitConfig : Datatypes.option GitConfig) : bool :=
  match gitConfig with
  | Some c => match url c with
              | Some u => String.eqb u EmptyString
              | None => true
              end
  | None => true
  end.

(** The [catch] block. *)
Definition report (git : Git) (err : JsError) : list Output :=
  if isNoGitRepoError git err
  then [ConsoleLog "No git configuration found. The current directory does not appear to be a git repository."]
  else [ConsoleLog "Error retrieving git repository information"].

(** The [try] statement with its [catch] block. *)
Definition try_block (git : Git) (gitParams : GetGitParameters) (argv : JsObject)
  : Completion unit * list Output :=
  match getGitConfig gitParams (field argv "remote") with
  | Throw err => (Normal tt, report git err)
  | Normal gitConfig =>
      if no_url gitConfig then (Normal tt, [ConsoleLog "Unable to find git repo config"])
      else
        let u := match gitConfig ≫= url with
                 | Some u => u
                 | None => EmptyString
                 end in
        let printed := [ConsoleLog ("Launching git repo url: " ++ u)%string; Open u] in
        match open git u with
        | Normal _ => (Normal tt, printed)
        | Throw err => (Normal tt, printed ++ report git err)
        end
  end.

(** [exports.handler = async (argv) => { ... }]: how its promise settles,
    and what it printed and opened.  [Container.get] is called before the
    [try] statement. *)
Definition handler (git : Git) (argv : JsObject) : Completion unit * list Output :=
  match container_get git with
  | Throw err => (Throw err, [])
  | Normal gitParams => try_block git gitParams argv
  end.

Definition is_open (o : Output) : bool :=
  match o with Open _ => true | ConsoleLog _ => false end.

End GitCommand.

(** ** [src/services/namespace/namespace.ts]: [getCurrentProject] *)

Module CurrentProject.









End CurrentProject.

(** * Properties *)

(** ** JavaScript values *)

Lemma strict_eq_str_spec (v : JsValue) (lit : string) :
  strict_eq_str v lit = true <-> v = JStr lit.
Proof.
  destruct v as [| b | n | s]; simpl; try (split; [discriminate | congruence]).
  rewrite String.eqb_eq. split; congruence.
Qed.

Lemma strict_eq_str_false (v : JsValue) (lit : string) :
  strict_eq_str v lit = false <-> v <> JStr lit.
Proof.
  rewrite <- strict_eq_str_spec. destruct (strict_eq_str v lit); split; congruence.
Qed.

(** ** Runs of [commonHandler] *)

Ltac unfold_handler :=
  unfold run_commonHandler, commonHandler, initial, handler_prefix, handler_container,
    handler_mutex, handler_api, wants_branch,
    try_catch_finally, bind_logger, bind_api, get_logger, get_api, assign_claim,
    read_claim, emit, await, throw, mbind, M_bind, mret, M_ret in *;
  simpl in *.

Lemma run_claim_throws (w : World) (k : Container) (argv : JsObject) (e : JsError) :
  mutex_claim w (handler_mutex argv) (claim_key argv) = Throw e ->
  run_commonHandler w k argv =
    (Throw release_of_undefined,
     mkHState (handler_container k argv) None
              (handler_prefix argv ++ [EConsoleError "Error running populate" e])).
Proof.
  intros Hclaim. unfold_handler.
  destruct (strict_eq_str (field argv "lock") "branch" || strict_eq_str (field argv "lock") "b");
    simpl; rewrite Hclaim; reflexivity.
Qed.

Lemma run_claim_ok (w : World) (k : Container) (argv : JsObject) (c : ClaimedMutex) :
  mutex_claim w (handler_mutex argv) (claim_key argv) = Normal c ->
  run_commonHandler w k argv =
    (settle_as (claim_release w c),
     mkHState (handler_container k argv) (Some c)
              (handler_prefix argv
               ++ [EGetApi (handler_api k argv); EPopulate (handler_api k argv) argv]
               ++ populate_log (populate w (handler_api k argv) argv)
               ++ [ERelease c])).
Proof.
  intros Hclaim. unfold_handler.
  destruct (strict_eq_str (field argv "lock") "branch" || strict_eq_str (field argv "lock") "b");
    simpl; rewrite Hclaim; simpl;
    match goal with |- context [populate w ?i argv] => destruct (populate w i argv) as [[] | e] end;
    simpl; destruct (claim_release w c) as [[] | e']; reflexivity.
Qed.

Lemma release_count_app (t1 t2 : list Event) :
  release_count (t1 ++ t2) = release_count t1 + release_count t2.
Proof. unfold release_count. rewrite filter_app, length_app. reflexivity. Qed.

Lemma release_count_prefix (argv : JsObject) : release_count (handler_prefix argv) = 0.
Proof. unfold handler_prefix. destruct (wants_branch argv); reflexivity. Qed.

Lemma release_count_populate_log (p : Completion unit) : release_count (populate_log p) = 0.
Proof. destruct p; reflexivity. Qed.

(** On the paths where [mutex.claim] resolves, [release()] is called once,
    on the claim that was obtained, and it is the last call made. *)
Lemma commonHandler_releases_once (w : World) (k : Container) (argv : JsObject)
    (c : ClaimedMutex) :
  mutex_claim w (handler_mutex argv) (claim_key argv) = Normal c ->
  release_count (trace (snd (run_commonHandler w k argv))) = 1
  /\ last (trace (snd (run_commonHandler w k argv))) = Some (ERelease c).
Proof.
  intros Hclaim. rewrite (run_claim_ok _ _ _ _ Hclaim). cbn [snd trace]. split.
  - rewrite !release_count_app, release_count_prefix, release_count_populate_log.
    reflexivity.
  - rewrite !app_assoc. apply last_snoc.
Qed.

(** ** [commonHandler] and [createMutex] *)

(** C1.  When [mutex.claim] resolves, [release()] is called exactly once, on
    the claim obtained, as the last call of the handler, whether [populate]
    resolves or rejects.  The clause of the claim about a failing
    [mutex.claim] does not hold of the code: then [claim] is still
    [undefined] when the [finally] block evaluates [claim.release()], so
    that no release is called and the handler's promise rejects with the
    [TypeError] of that call, a new error, after the rejection of [claim]
    has been printed. *)
Theorem commonHandler_release_on_every_path
    (w : World) (k : Container) (argv : JsObject) :
  (forall c : ClaimedMutex,
      mutex_claim w (handler_mutex argv) (claim_key argv) = Normal c ->
      release_count (trace (snd (run_commonHandler w k argv))) = 1
      /\ last (trace (snd (run_commonHandler w k argv))) = Some (ERelease c))
  /\ (forall e : JsError,
        mutex_claim w (handler_mutex argv) (claim_key argv) = Throw e ->
        fst (run_commonHandler w k argv) = Throw release_of_undefined
        /\ claim_var (snd (run_commonHandler w k argv)) = None
        /\ release_count (trace (snd (run_commonHandler w k argv))) = 0
        /\ last (trace (snd (run_commonHandler w k argv)))
           = Some (EConsoleError "Error running populate" e)).
Proof.
  split.
  - intros c Hclaim. exact (commonHandler_releases_once w k argv c Hclaim).
  - intros e Hclaim. rewrite (run_claim_throws _ _ _ _ Hclaim).
    cbn [fst snd claim_var trace]. repeat split.
    + rewrite release_count_app, release_count_prefix. reflexivity.
    + apply last_snoc.
Qed.

Lemma commonHandler_release_on_every_path_witness :
  mutex_claim locked_world (handler_mutex (argv_of "pessimistic"))
              (claim_key (argv_of "pessimistic")) = Throw lock_timeout
  /\ fst (run_commonHandler locked_world default_container (argv_of "pessimistic"))
     = Throw release_of_undefined
  /\ release_count
       (trace (snd (run_commonHandler quiet_world default_container (argv_of "pessimistic"))))
     = 1.
Proof.
  destruct (commonHandler_release_on_every_path
              locked_world default_container (argv_of "pessimistic")) as [_ Hfail].
  destruct (commonHandler_release_on_every_path
              quiet_world default_container (argv_of "pessimistic")) as [Hok _].
  split; [vm_compute; reflexivity |]. split.
  - apply (Hfail lock_timeout). vm_compute; reflexivity.
  - eapply Hok. vm_compute; reflexivity.
Defined.

(** The claim of C2, as it is stated, at one run: [populate] rejects with a
    [MaterializationError] under the branch strategy, and the promise of
    [commonHandler] resolves. *)
Lemma commonHandler_resolves_when_populate_rejects :
  populate failing_populate_world
           (handler_api default_container (argv_of "branch")) (argv_of "branch")
    = Throw materialization_error
  /\ fst (run_commonHandler failing_populate_world default_container (argv_of "branch"))
     = Normal tt
  /\ fst (run_commonHandler failing_populate_world default_container (argv_of "branch"))
     <> Throw materialization_error.
Proof.
  split; [vm_compute; reflexivity |].
  assert (H : fst (run_commonHandler failing_populate_world default_container
                                     (argv_of "branch")) = Normal tt)
    by (vm_compute; reflexivity).
  split; [exact H | rewrite H; discriminate].
Qed.

(** C2, amended.  [commonHandler] catches every error thrown by
    [service.populate], prints it with [console.error('Error running
    populate', err)], then calls [release()] once on the claim; it does not
    rethrow, so its promise settles as [release()] does: it resolves when
    the release resolves, and rejects only with an error of the release. *)
Theorem commonHandler_logs_populate_error_and_releases
    (w : World) (k : Container) (argv : JsObject) (c : ClaimedMutex) (e : JsError) :
  mutex_claim w (handler_mutex argv) (claim_key argv) = Normal c ->
  populate w (handler_api k argv) argv = Throw e ->
  (claim_release w c = Normal tt -> fst (run_commonHandler w k argv) = Normal tt)
  /\ (forall e', claim_release w c = Throw e' ->
        fst (run_commonHandler w k argv) = Throw e')
  /\ release_count (trace (snd (run_commonHandler w k argv))) = 1
  /\ exists before : list Event,
       trace (snd (run_commonHandler w k argv))
       = before ++ [EPopulate (handler_api k argv) argv;
                    EConsoleError "Error running populate" e;
                    ERelease c].
Proof.
  intros Hclaim Hpop.
  destruct (commonHandler_releases_once w k argv c Hclaim) as [Hcount _].
  rewrite (run_claim_ok _ _ _ _ Hclaim) in *. cbn [fst snd trace] in *.
  rewrite Hpop in *. repeat split.
  - intros ->. reflexivity.
  - intros e' ->. reflexivity.
  - exact Hcount.
  - exists (handler_prefix argv ++ [EGetApi (handler_api k argv)]).
    cbn [populate_log]. rewrite <- !app_assoc. reflexivity.
Qed.

Lemma commonHandler_logs_populate_error_and_releases_witness :
  fst (run_commonHandler failing_populate_world default_container (argv_of "pessimistic"))
    = Normal tt
  /\ release_count
       (trace (snd (run_commonHandler failing_populate_world default_container
                                      (argv_of "pessimistic")))) = 1.
Proof.
  pose proof (commonHandler_logs_populate_error_and_releases
                failing_populate_world default_container (argv_of "pessimistic")
                (FileClaim (JStr "/tmp/gitops-module") "gitops-module"
                           (claim_key (argv_of "pessimistic")))
                materialization_error) as H.
  destruct H as (Hok & _ & Hcount & _); [vm_compute; reflexivity .. |].
  split; [apply Hok; vm_compute; reflexivity | exact Hcount].
Defined.

Lemma createMutex_cases (lock tmpDir : JsValue) (scope : string) (logger : Logger) :
  (lock = JStr "pessimistic" \/ lock = JStr "p")
    /\ createMutex lock tmpDir scope logger = Mutex tmpDir scope logger
  \/ ~ (lock = JStr "pessimistic" \/ lock = JStr "p")
    /\ createMutex lock tmpDir scope logger = NoopMutex.
Proof.
  unfold createMutex.
  destruct (strict_eq_str lock "pessimistic") eqn:E1; simpl.
  - left. apply strict_eq_str_spec in E1. auto.
  - destruct (strict_eq_str lock "p") eqn:E2.
    + left. apply strict_eq_str_spec in E2. auto.
    + right. apply strict_eq_str_false in E1, E2. split; [tauto | reflexivity].
Qed.

Lemma wants_branch_spec (argv : JsObject) :
  wants_branch argv = true
  <-> field argv "lock" = JStr "branch" \/ field argv "lock" = JStr "b".
Proof.
  unfold wants_branch. rewrite orb_true_iff, !strict_eq_str_spec. reflexivity.
Qed.

(** C3.  [createMutex] returns the filesystem [Mutex] exactly when [lock] is
    ['pessimistic'] or ['p'] and the [NoopMutex] for every other value,
    among them ['optimistic'], ['o'], ['branch'] and ['b']; the [NoopMutex]
    claims at once and its release does nothing; and under ['branch'] or
    ['b'] [commonHandler] binds [GitopsModulePRImpl] to [GitOpsModuleApi]
    before it resolves the service, which is then that implementation. *)
Theorem createMutex_pessimistic_only_and_branch_binds_PR :
  (forall lock tmpDir scope logger,
      (createMutex lock tmpDir scope logger = Mutex tmpDir scope logger
       <-> lock = JStr "pessimistic" \/ lock = JStr "p")
      /\ (createMutex lock tmpDir scope logger = NoopMutex
          <-> ~ (lock = JStr "pessimistic" \/ lock = JStr "p")))
  /\ (forall tmpDir scope logger,
        Forall (fun lock => createMutex (JStr lock) tmpDir scope logger = NoopMutex)
               ["optimistic"; "o"; "branch"; "b"])
  /\ (forall w key,
        mutex_claim w NoopMutex key = Normal NoopClaim
        /\ claim_release w NoopClaim = Normal tt)
  /\ (forall w k argv,
        field argv "lock" = JStr "branch" \/ field argv "lock" = JStr "b" ->
        exists rest : list Event,
          trace (snd (run_commonHandler w k argv))
          = [EBindLogger (field argv "debug");
             EBindApi GitopsModulePRImpl;
             EGetLogger;
             EClaim NoopMutex (claim_key argv);
             EGetApi GitopsModulePRImpl;
             EPopulate GitopsModulePRImpl argv] ++ rest).
Proof.
  split; [| split; [| split]].
  - intros lock tmpDir scope logger.
    destruct (createMutex_cases lock tmpDir scope logger) as [[Hl ->] | [Hl ->]];
      split; split; try tauto; try discriminate.
  - intros tmpDir scope logger. repeat constructor.
  - intros w key. split; reflexivity.
  - intros w k argv Hlock.
    assert (Hb : wants_branch argv = true) by (apply wants_branch_spec; exact Hlock).
    assert (Hm : handler_mutex argv = NoopMutex).
    { unfold handler_mutex.
      destruct (createMutex_cases (field argv "lock") (field argv "tmpDir")
                  "gitops-module" (VerboseLogger (field argv "debug")))
        as [[Hl _] | [_ ->]]; [| reflexivity].
      destruct Hlock as [Hk | Hk]; rewrite Hk in Hl; destruct Hl; discriminate. }
    assert (Ha : handler_api k argv = GitopsModulePRImpl).
    { unfold handler_api. fold (wants_branch argv). rewrite Hb. reflexivity. }
    assert (Hc : mutex_claim w (handler_mutex argv) (claim_key argv) = Normal NoopClaim)
      by (rewrite Hm; reflexivity).
    rewrite (run_claim_ok _ _ _ _ Hc). cbn [snd trace].
    unfold handler_prefix. rewrite Hb, Hm, Ha. eexists. reflexivity.
Qed.

Lemma createMutex_pessimistic_only_and_branch_binds_PR_witness :
  createMutex (JStr "branch") (JStr "/tmp/gitops-module") "gitops-module"
              (VerboseLogger JUndefined) = NoopMutex
  /\ exists rest : list Event,
       trace (snd (run_commonHandler quiet_world default_container (argv_of "branch")))
       = [EBindLogger (field (argv_of "branch") "debug");
          EBindApi GitopsModulePRImpl;
          EGetLogger;
          EClaim NoopMutex (claim_key (argv_of "branch"));
          EGetApi GitopsModulePRImpl;
          EPopulate GitopsModulePRImpl (argv_of "branch")] ++ rest.
Proof.
  destruct createMutex_pessimistic_only_and_branch_binds_PR as (Hm & _ & _ & Hrun).
  split.
  - apply Hm. intros [H | H]; discriminate H.
  - apply Hrun. left. vm_compute; reflexivity.
Defined.

(** ** The argument parser *)

Section ParserFacts.
Import Yargs YargsParser.

Lemma defined_true (argv : JsObject) (k : string) :
  defined argv k = true <-> field argv k <> JUndefined.
Proof.
  unfold defined. rewrite negb_true_iff, bool_decide_eq_false. reflexivity.
Qed.

Lemma defined_false (argv : JsObject) (k : string) :
  defined argv k = false <-> field argv k = JUndefined.
Proof.
  unfold defined. rewrite negb_false_iff, bool_decide_eq_true. reflexivity.
Qed.

Lemma field_insert (argv : JsObject) (k k' : string) (v : JsValue) :
  field (<[k := v]> argv) k' = if String.eqb k k' then v else field argv k'.
Proof.
  unfold field. destruct (String.eqb_spec k k') as [-> | Hne].
  - rewrite lookup_insert_eq. reflexivity.
  - rewrite lookup_insert_ne by exact Hne. reflexivity.
Qed.

(** A value that was supplied is kept, and an option that was not
    supplied reads as the first default declared for it. *)
Lemma with_defaults_field (ds : list Declared) (supplied : JsObject) (k : string) :
  field (with_defaults ds supplied) k
  = if defined supplied k then field supplied k else first_default ds k.
Proof.
  unfold with_defaults. revert supplied.
  induction ds as [| d ds IH]; intros supplied; simpl.
  - destruct (defined supplied k) eqn:E; [reflexivity |].
    apply defined_false in E. exact E.
  - rewrite IH. clear IH.
    destruct (defined supplied (key d)) eqn:Ed.
    + destruct (String.eqb_spec (key d) k) as [<- | Hne]; [| reflexivity].
      rewrite Ed. reflexivity.
    + destruct (default_of (settings d)) as [| bv | n | s] eqn:Edef.
      * destruct (String.eqb_spec (key d) k) as [<- | Hne]; [| reflexivity].
        rewrite Ed. reflexivity.
      * destruct (String.eqb_spec (key d) k) as [<- | Hne].
        -- rewrite Ed.
           assert (Hd : defined (<[key d := JBool bv]> supplied) (key d) = true).
           { apply defined_true. rewrite field_insert, String.eqb_refl. discriminate. }
           rewrite Hd, field_insert, String.eqb_refl. reflexivity.
        -- unfold defined. rewrite field_insert.
           destruct (String.eqb_spec (key d) k); [contradiction | reflexivity].
      * destruct (String.eqb_spec (key d) k) as [<- | Hne].
        -- rewrite Ed.
           assert (Hd : defined (<[key d := JNum n]> supplied) (key d) = true).
           { apply defined_true. rewrite field_insert, String.eqb_refl. discriminate. }
           rewrite Hd, field_insert, String.eqb_refl. reflexivity.
        -- unfold defined. rewrite field_insert.
           destruct (String.eqb_spec (key d) k); [contradiction | reflexivity].
      * destruct (String.eqb_spec (key d) k) as [<- | Hne].
        -- rewrite Ed.
           assert (Hd : defined (<[key d := JStr s]> supplied) (key d) = true).
           { apply defined_true. rewrite field_insert, String.eqb_refl. discriminate. }
           rewrite Hd, field_insert, String.eqb_refl. reflexivity.
        -- unfold defined. rewrite field_insert.
           destruct (String.eqb_spec (key d) k); [contradiction | reflexivity].
Qed.

Lemma with_defaults_defined (ds : list Declared) (supplied : JsObject) (k : string) :
  defined supplied k = true -> defined (with_defaults ds supplied) k = true.
Proof.
  intros Hd. apply defined_true. rewrite with_defaults_field, Hd.
  apply defined_true. exact Hd.
Qed.

Lemma in_validate (ds : list Declared) (argv : JsObject) (err : ParseError) :
  In err (validate ds argv) <-> exists d, In d ds /\ In err (check argv d).
Proof. unfold validate. apply in_flat_map. Qed.

(** Two options that a declaration makes conflicting and that are both set
    are reported. *)
Lemma validate_conflict (ds : list Declared) (argv : JsObject) (d : Declared) (k' : string) :
  In d ds ->
  conflicts_of (settings d) = Some k' ->
  defined argv (key d) = true ->
  defined argv k' = true ->
  In (MutuallyExclusive (key d) k') (validate ds argv).
Proof.
  intros Hin Hc Hd Hd'. apply in_validate. exists d. split; [exact Hin |].
  unfold check. rewrite Hc, Hd, Hd'. simpl.
  apply in_or_app. right. apply in_or_app. right. left. reflexivity.
Qed.

(** An invalid choice is reported for [k] exactly when some declaration of
    [k] has choices that the value set for [k] is not among. *)
Lemma validate_choice (ds : list Declared) (argv : JsObject) (k : string) (v : JsValue) :
  In (InvalidChoice k v) (validate ds argv)
  <-> exists d vs, In d ds /\ key d = k /\ choices_of (settings d) = Some vs
                   /\ defined argv k = true /\ v = field argv k /\ ~ In v vs.
Proof.
  rewrite in_validate. split.
  - intros (d & Hin & Herr). unfold check in Herr.
    apply in_app_or in Herr as [Herr | Herr].
    { destruct (demanded (settings d) && negb (defined argv (key d)));
        simpl in Herr; [destruct Herr as [Herr | []]; discriminate | destruct Herr]. }
    apply in_app_or in Herr as [Herr | Herr].
    + destruct (choices_of (settings d)) as [vs |] eqn:Ec; [| destruct Herr].
      destruct (defined argv (key d)) eqn:Ed; simpl in Herr; [| destruct Herr].
      destruct (bool_decide (field argv (key d) ∈ vs)) eqn:Eb; simpl in Herr;
        [destruct Herr |].
      destruct Herr as [Herr | []]. injection Herr as <- <-.
      exists d, vs. repeat split; try assumption; try reflexivity.
      apply bool_decide_eq_false in Eb. rewrite <- list_elem_of_In. exact Eb.
    + destruct (conflicts_of (settings d)) as [k' |]; [| destruct Herr].
      destruct (defined argv (key d) && defined argv k'); simpl in Herr;
        [destruct Herr as [Herr | []]; discriminate | destruct Herr].
  - intros (d & vs & Hin & <- & Hc & Hd & -> & Hv).
    exists d. split; [exact Hin |]. unfold check. rewrite Hc, Hd. simpl.
    apply in_or_app. right. apply in_or_app. left.
    rewrite bool_decide_eq_false_2 by (rewrite list_elem_of_In; exact Hv).
    left. reflexivity.
Qed.

(** A reported error stops the command before its handler. *)
Lemma run_rejects (ds : list Declared) (handler : JsObject -> M unit) (k : Container)
    (supplied : JsObject) (err : ParseError) :
  In err (validate ds (with_defaults ds supplied)) ->
  exists err', run ds handler k supplied = inl err'.
Proof.
  intros Hin. unfold run, parse.
  destruct (validate ds (with_defaults ds supplied)) as [| err' errs];
    [destruct Hin | exists err'; reflexivity].
Qed.

End ParserFacts.

(** C6 and C7 read the default of an option whose declaration depends on
    the environment. *)
Lemma lock_default_cases (b : BuilderEnv) :
  js_or (process_env (env b) "LOCK") (JStr "branch")
  = match env b !! "LOCK" with
    | Some s => if String.eqb s "" then JStr "branch" else JStr s
    | None => JStr "branch"
    end.
Proof.
  unfold js_or, process_env. destruct (env b !! "LOCK") as [s |]; [| reflexivity].
  simpl. destruct (String.eqb s ""); reflexivity.
Qed.

Lemma lock_default_defined (b : BuilderEnv) :
  js_or (process_env (env b) "LOCK") (JStr "branch") <> JUndefined.
Proof.
  rewrite lock_default_cases. destruct (env b !! "LOCK") as [s |]; [| discriminate].
  destruct (String.eqb s ""); discriminate.
Qed.

Section DeclaredFacts.
Import Yargs YargsParser.

Lemma declared_In (ds : list Declared) (k : string) (o : list Setting) :
  declared ds k = Some o -> exists d, In d ds /\ key d = k /\ settings d = o.
Proof.
  induction ds as [| d ds IH]; simpl; [discriminate |].
  destruct (String.eqb_spec (key d) k) as [Hk | Hk].
  - intros [= <-]. exists d. auto.
  - intros H. destruct (IH H) as (d' & Hin & Hk' & Hs). exists d'. auto.
Qed.

Lemma conflict_rejected (ds : list Declared) (handler : JsObject -> M unit)
    (c : Container) (supplied : JsObject) (k k' : string) :
  conflicts_for ds k = Some k' ->
  defined supplied k = true ->
  defined supplied k' = true ->
  In (MutuallyExclusive k k') (validate ds (with_defaults ds supplied))
  /\ exists err, run ds handler c supplied = inl err.
Proof.
  unfold conflicts_for. intros Hc Hk Hk'.
  destruct (declared ds k) as [o |] eqn:Ed; [| discriminate].
  destruct (declared_In _ _ _ Ed) as (d & Hin & <- & <-).
  assert (Herr : In (MutuallyExclusive (key d) k') (validate ds (with_defaults ds supplied))).
  { apply (validate_conflict ds _ d k' Hin Hc); apply with_defaults_defined; assumption. }
  split; [exact Herr | exact (run_rejects _ _ _ _ _ Herr)].
Qed.

End DeclaredFacts.

(** Finds, among the declarations of a builder, those of a given key. *)
Ltac declarations_of Hin Hkey :=
  simpl in Hin;
  repeat (destruct Hin as [<- | Hin]; [try discriminate Hkey |]);
  try contradiction.

(** ** The commands *)

(** The claim of C4, as it is stated, on the second declaration of
    [GitOpsLayer] in the file: its member [service] is initialised with
    ['service'], which is none of the three values, and no member of it has
    the value ['services']. *)
Lemma GitOpsLayer_second_declaration_has_other_members :
  ~ In (GitopsModuleApi2.value GitopsModuleApi2.service)
       ["infrastructure"; "services"; "applications"]
  /\ ~ exists l, GitopsModuleApi2.value l = "services".
Proof.
  split.
  - simpl. intros [H | [H | [H | []]]]; discriminate H.
  - intros [[] H]; discriminate H.
Qed.

(** C4, amended.  The [GitOpsLayer] enumeration that the gitops-module
    command is written against, the first declaration in the file, has
    exactly the three members [infrastructure], [services] and
    [applications], whose values are those three strings, and the command
    restricts the choices of [--layer] to exactly the values of these
    members: a value set for [layer] is refused exactly when it is none of
    them.  The second declaration of [GitOpsLayer] in the same file has the
    values ['infrastructure'], ['service'] and ['application']. *)
Theorem GitOpsLayer_members_are_the_layer_choices :
  (forall s, (exists l, GitopsModuleApi.value l = s)
             <-> In s ["infrastructure"; "services"; "applications"])
  /\ (forall l, In l GitopsModuleApi.members)
  /\ map GitopsModuleApi.value GitopsModuleApi.members
     = ["infrastructure"; "services"; "applications"]
  /\ (forall b,
        Yargs.choices_for (GitopsModule.builder b) "layer"
        = Some (map (fun l => JStr (GitopsModuleApi.value l)) GitopsModuleApi.members))
  /\ (forall b argv v,
        In (YargsParser.InvalidChoice "layer" v)
           (YargsParser.validate (GitopsModule.builder b) argv)
        <-> Yargs.defined argv "layer" = true /\ v = field argv "layer"
            /\ ~ In v [JStr "infrastructure"; JStr "services"; JStr "applications"])
  /\ (forall s, (exists l, GitopsModuleApi2.value l = s)
                <-> In s ["infrastructure"; "service"; "application"]).
Proof.
  repeat apply conj.
  - intros s. split.
    + intros [[] <-]; simpl; auto.
    + simpl. intros [<- | [<- | [<- | []]]];
        [exists GitopsModuleApi.infrastructure
        | exists GitopsModuleApi.services
        | exists GitopsModuleApi.applications]; reflexivity.
  - intros []; simpl; auto.
  - reflexivity.
  - intros b. reflexivity.
  - intros b argv v. rewrite validate_choice. split.
    + intros (d & vs & Hin & Hkey & Hc & Hd & Hv & Hnot).
      declarations_of Hin Hkey. simpl in Hc. injection Hc as <-. auto.
    + intros (Hd & Hv & Hnot).
      destruct (declared_In (GitopsModule.builder b) "layer" _ eq_refl)
        as (d & Hin & Hkey & Hs).
      exists d, [JStr "infrastructure"; JStr "services"; JStr "applications"].
      rewrite Hs. auto 10.
  - intros s. split.
    + intros [[] <-]; simpl; auto.
    + simpl. intros [<- | [<- | [<- | []]]];
        [exists GitopsModuleApi2.infrastructure
        | exists GitopsModuleApi2.service
        | exists GitopsModuleApi2.application]; reflexivity.
Qed.

Lemma GitOpsLayer_members_are_the_layer_choices_witness :
  In (YargsParser.InvalidChoice "layer" (JStr "service"))
     (YargsParser.validate (GitopsModule.builder plain_env)
                           {[ "layer" := JStr "service" ]}).
Proof.
  destruct GitOpsLayer_members_are_the_layer_choices as (_ & _ & _ & _ & H & _).
  apply H. split; [vm_compute; reflexivity |].
  split; [vm_compute; reflexivity |].
  simpl. intros [E | [E | [E | []]]]; discriminate E.
Defined.

(** C5.  Both builders declare [gitopsConfigFile] and [bootstrapRepoUrl] as
    conflicting with each other, and [gitopsCredentialsFile] and [token]
    likewise; when the two options of such a pair are both supplied, the
    parser reports them as mutually exclusive and the command is rejected
    without its handler being called, so that nothing is claimed, fetched
    or populated. *)
Theorem conflicting_options_are_rejected_before_the_handler
    (b : BuilderEnv) (w : World) (ds : list Yargs.Declared) (handler : JsObject -> M unit) :
  ds = GitopsNamespace.builder b /\ handler = GitopsNamespace.handler w
  \/ ds = GitopsModule.builder b /\ handler = GitopsModule.handler w ->
  Yargs.conflicts_for ds "gitopsConfigFile" = Some "bootstrapRepoUrl"
  /\ Yargs.conflicts_for ds "bootstrapRepoUrl" = Some "gitopsConfigFile"
  /\ Yargs.conflicts_for ds "gitopsCredentialsFile" = Some "token"
  /\ Yargs.conflicts_for ds "token" = Some "gitopsCredentialsFile"
  /\ forall (k : Container) (supplied : JsObject) (k1 k2 : string),
       (k1 = "gitopsConfigFile" /\ k2 = "bootstrapRepoUrl"
        \/ k1 = "gitopsCredentialsFile" /\ k2 = "token") ->
       Yargs.defined supplied k1 = true ->
       Yargs.defined supplied k2 = true ->
       In (YargsParser.MutuallyExclusive k1 k2)
          (YargsParser.validate ds (YargsParser.with_defaults ds supplied))
       /\ exists err, YargsParser.run ds handler k supplied = inl err.
Proof.
  intros [[-> ->] | [-> ->]]; (repeat apply conj; try reflexivity);
    intros k supplied k1 k2 [[-> ->] | [-> ->]] H1 H2;
    apply conflict_rejected; try assumption; reflexivity.
Qed.

Lemma conflicting_options_are_rejected_before_the_handler_witness :
  Yargs.defined {[ "name" := JStr "svc-a"; "namespace" := JStr "default";
                   "gitopsConfigFile" := JStr "gitops.yaml";
                   "bootstrapRepoUrl" := JStr "https://git.example/bootstrap" ]}
                "gitopsConfigFile" = true
  /\ exists err,
       YargsParser.run (GitopsModule.builder plain_env) (GitopsModule.handler quiet_world)
         default_container
         {[ "name" := JStr "svc-a"; "namespace" := JStr "default";
            "gitopsConfigFile" := JStr "gitops.yaml";
            "bootstrapRepoUrl" := JStr "https://git.example/bootstrap" ]}
       = inl err.
Proof.
  split; [vm_compute; reflexivity |].
  destruct (conflicting_options_are_rejected_before_the_handler
              plain_env quiet_world (GitopsModule.builder plain_env)
              (GitopsModule.handler quiet_world))
    as (_ & _ & _ & _ & H); [right; split; reflexivity |].
  apply (H default_container _ "gitopsConfigFile" "bootstrapRepoUrl");
    [left; split; reflexivity | vm_compute; reflexivity | vm_compute; reflexivity].
Defined.

(** C6.  In both builders the option [lock] has exactly the choices
    optimistic, pessimistic, branch, o, p and b, so that a value set for it
    is refused exactly when it is none of these, and its default is the
    value of the environment variable [LOCK] when that is set and not
    empty, and ['branch'] otherwise; an invocation that does not supply
    [lock] is parsed with that default. *)
Theorem lock_option_choices_and_default
    (b : BuilderEnv) (ds : list Yargs.Declared) :
  ds = GitopsNamespace.builder b \/ ds = GitopsModule.builder b ->
  Yargs.choices_for ds "lock"
  = Some [JStr "optimistic"; JStr "pessimistic"; JStr "branch"; JStr "o"; JStr "p"; JStr "b"]
  /\ (forall argv v,
        In (YargsParser.InvalidChoice "lock" v) (YargsParser.validate ds argv)
        <-> Yargs.defined argv "lock" = true /\ v = field argv "lock"
            /\ ~ In v [JStr "optimistic"; JStr "pessimistic"; JStr "branch";
                       JStr "o"; JStr "p"; JStr "b"])
  /\ Yargs.default_for ds "lock"
     = match env b !! "LOCK" with
       | Some s => if String.eqb s "" then JStr "branch" else JStr s
       | None => JStr "branch"
       end
  /\ (forall supplied,
        Yargs.defined supplied "lock" = false ->
        field (YargsParser.with_defaults ds supplied) "lock"
        = match env b !! "LOCK" with
          | Some s => if String.eqb s "" then JStr "branch" else JStr s
          | None => JStr "branch"
          end).
Proof.
  intros Hds.
  assert (Hdecl : exists d, In d ds /\ Yargs.key d = "lock"
            /\ Yargs.choices_of (Yargs.settings d)
               = Some [JStr "optimistic"; JStr "pessimistic"; JStr "branch";
                       JStr "o"; JStr "p"; JStr "b"]).
  { destruct Hds as [-> | ->].
    - destruct (declared_In (GitopsNamespace.builder b) "lock" _ eq_refl)
        as (d & Hin & Hkey & Hs).
      exists d. rewrite Hs. auto.
    - destruct (declared_In (GitopsModule.builder b) "lock" _ eq_refl)
        as (d & Hin & Hkey & Hs).
      exists d. rewrite Hs. auto. }
  assert (Hfirst : Yargs.first_default ds "lock"
                   = js_or (process_env (env b) "LOCK") (JStr "branch")).
  { pose proof (lock_default_defined b) as Hne.
    destruct Hds as [-> | ->]; simpl;
      destruct (js_or (process_env (env b) "LOCK") (JStr "branch"));
      try reflexivity; contradiction. }
  repeat apply conj.
  - destruct Hds as [-> | ->]; reflexivity.
  - intros argv v. rewrite validate_choice. split.
    + intros (d & vs & Hin & Hkey & Hc & Hd & Hv & Hnot).
      destruct Hds as [-> | ->]; declarations_of Hin Hkey;
        simpl in Hc; injection Hc as <-; auto.
    + intros (Hd & Hv & Hnot). destruct Hdecl as (d & Hin & Hkey & Hc).
      exists d. eexists. eauto 10.
  - rewrite <- lock_default_cases. destruct Hds as [-> | ->]; reflexivity.
  - intros supplied Hd. rewrite with_defaults_field, Hd, Hfirst.
    apply lock_default_cases.
Qed.

Lemma lock_option_choices_and_default_witness :
  field (YargsParser.with_defaults (GitopsNamespace.builder plain_env)
                                   {[ "name" := JStr "dev" ]}) "lock"
  = JStr "branch".
Proof.
  destruct (lock_option_choices_and_default plain_env (GitopsNamespace.builder plain_env))
    as (_ & _ & _ & H); [left; reflexivity |].
  apply (H {[ "name" := JStr "dev" ]}). vm_compute; reflexivity.
Defined.

(** The claim of C7, as it is stated, on the gitops-module command: an
    invocation that does not supply [tmpDir] is parsed with
    ['/tmp/gitops-module'], which is not the string ['/tmp/gitops-module/']. *)
Lemma gitops_module_tmpDir_default_has_no_trailing_slash :
  field (YargsParser.with_defaults (GitopsModule.builder plain_env)
           {[ "name" := JStr "svc-a"; "namespace" := JStr "default" ]}) "tmpDir"
  = JStr "/tmp/gitops-module"
  /\ Yargs.default_for (GitopsModule.builder plain_env) "tmpDir"
     <> JStr "/tmp/gitops-module/".
Proof. split; [vm_compute; reflexivity | discriminate]. Qed.

(** C7, amended.  The option [tmpDir] defaults to ['/tmp/gitops-module/']
    in the gitops-namespace command and to ['/tmp/gitops-module'], the same
    path without the final slash, in the gitops-module command; an
    invocation that does not supply it is parsed with that default. *)
Theorem tmpDir_option_defaults (b : BuilderEnv) :
  Yargs.default_for (GitopsNamespace.builder b) "tmpDir" = JStr "/tmp/gitops-module/"
  /\ Yargs.default_for (GitopsModule.builder b) "tmpDir" = JStr "/tmp/gitops-module"
  /\ forall supplied,
       Yargs.defined supplied "tmpDir" = false ->
       field (YargsParser.with_defaults (GitopsNamespace.builder b) supplied) "tmpDir"
       = JStr "/tmp/gitops-module/"
       /\ field (YargsParser.with_defaults (GitopsModule.builder b) supplied) "tmpDir"
          = JStr "/tmp/gitops-module".
Proof.
  repeat apply conj; try reflexivity.
  intros supplied Hd. rewrite !with_defaults_field, Hd. split; reflexivity.
Qed.

Lemma tmpDir_option_defaults_witness :
  field (YargsParser.with_defaults (GitopsNamespace.builder plain_env)
                                   {[ "name" := JStr "dev" ]}) "tmpDir"
  = JStr "/tmp/gitops-module/".
Proof.
  destruct (tmpDir_option_defaults plain_env) as (_ & _ & H).
  destruct (H {[ "name" := JStr "dev" ]}) as [Hnamespace _];
    [vm_compute; reflexivity | exact Hnamespace].
Defined.

(** C8.  The gitops-namespace handler calls [commonHandler] with an object
    in which [isNamespace] is [true] and [layer] is ['infrastructure'],
    whatever the parsed arguments held for these two properties, and in
    which every other property is that of the parsed arguments. *)
Theorem gitops_namespace_handler_overrides_isNamespace_and_layer
    (w : World) (argv : JsObject) :
  GitopsNamespace.handler w argv = commonHandler w (GitopsNamespace.handler_args argv)
  /\ GitopsNamespace.handler_args argv !! "isNamespace" = Some (JBool true)
  /\ GitopsNamespace.handler_args argv !! "layer" = Some (JStr "infrastructure")
  /\ forall k : string,
       k <> "isNamespace" -> k <> "layer" ->
       GitopsNamespace.handler_args argv !! k = argv !! k.
Proof.
  unfold GitopsNamespace.handler, GitopsNamespace.handler_args, object_assign.
  repeat apply conj.
  - reflexivity.
  - apply lookup_union_Some_l. reflexivity.
  - apply lookup_union_Some_l. reflexivity.
  - intros k Hk1 Hk2. apply lookup_union_r.
    rewrite lookup_insert_ne by congruence.
    apply lookup_singleton_ne. congruence.
Qed.

Lemma gitops_namespace_handler_overrides_isNamespace_and_layer_witness :
  GitopsNamespace.handler_args
    {[ "name" := JStr "dev"; "layer" := JStr "services"; "isNamespace" := JBool false ]}
    !! "name" = Some (JStr "dev").
Proof.
  destruct (gitops_namespace_handler_overrides_isNamespace_and_layer quiet_world
              {[ "name" := JStr "dev"; "layer" := JStr "services";
                 "isNamespace" := JBool false ]}) as (_ & _ & _ & H).
  rewrite H; [vm_compute; reflexivity | discriminate | discriminate].
Defined.

(** ** [NamespaceImpl] *)

Section NamespaceFacts.
Import NamespaceImpl.

Lemma includes_In (l : list string) (x : string) : includes l x = true <-> In x l.
Proof.
  unfold includes. rewrite existsb_exists. split.
  - intros (y & Hin & Heq). apply String.eqb_eq in Heq. subst y. exact Hin.
  - intros Hin. exists x. split; [exact Hin | apply String.eqb_refl].
Qed.




(** With two different namespaces each copy method makes its one
    [copyAll] call, from [fromNamespace] to [toNamespace]. *)
Lemma copy_to_another_namespace_copies (toNamespace fromNamespace : string) :
  toNamespace <> fromNamespace ->
  copy_calls (copyConfigMaps toNamespace fromNamespace)
  = [(configMaps,
      mkListOptions fromNamespace (Some (mkQueryString "group=catalyst-tools")),
      toNamespace)]
  /\ copy_calls (copySecrets toNamespace fromNamespace)
     = [(secrets,
         mkListOptions fromNamespace (Some (mkQueryString "group=catalyst-tools")),
         toNamespace)]
  /\ copy_calls (copyPipelines toNamespace fromNamespace)
     = [(tektonPipelines, mkListOptions fromNamespace None, toNamespace)].
Proof.
  intros Hne. unfold copyConfigMaps, copySecrets, copyPipelines.
  destruct (String.eqb_spec toNamespace fromNamespace) as [Heq | _];
    [contradiction | repeat split].
Qed.

End NamespaceFacts.



(** C10.  For every namespace [n], [copyConfigMaps(n, n)], [copySecrets(n, n)]
    and [copyPipelines(n, n)] return at once, without a [copyAll] call on
    the resource client. *)
Theorem copy_onto_the_same_namespace_copies_nothing (n : string) :
  NamespaceImpl.copyConfigMaps n n = NamespaceImpl.ReturnUndefined
  /\ NamespaceImpl.copySecrets n n = NamespaceImpl.ReturnUndefined
  /\ NamespaceImpl.copyPipelines n n = NamespaceImpl.ReturnUndefined
  /\ NamespaceImpl.copy_calls (NamespaceImpl.copyConfigMaps n n) = []
  /\ NamespaceImpl.copy_calls (NamespaceImpl.copySecrets n n) = []
  /\ NamespaceImpl.copy_calls (NamespaceImpl.copyPipelines n n) = [].
Proof.
  unfold NamespaceImpl.copyConfigMaps, NamespaceImpl.copySecrets, NamespaceImpl.copyPipelines.
  rewrite String.eqb_refl. repeat split.
Qed.

(** ** More on [commonHandler] *)

Lemma count_filter_app {A : Type} (f : A -> bool) (l1 l2 : list A) :
  length (List.filter f (l1 ++ l2)) = length (List.filter f l1) + length (List.filter f l2).
Proof. rewrite List.filter_app, length_app. reflexivity. Qed.

Lemma populate_count_prefix (argv : JsObject) : populate_count (handler_prefix argv) = 0.
Proof. unfold handler_prefix. destruct (wants_branch argv); reflexivity. Qed.

Lemma console_error_count_prefix (argv : JsObject) :
  console_error_count (handler_prefix argv) = 0.
Proof. unfold handler_prefix. destruct (wants_branch argv); reflexivity. Qed.

(** [service.populate] is called once, with [argv] itself, when
    [mutex.claim] resolved, and not at all when it rejected;
    [console.error] is called once when [mutex.claim] or [populate]
    rejected, and not at all otherwise. *)
Theorem commonHandler_populate_and_error_counts
    (w : World) (k : Container) (argv : JsObject) :
  let t := trace (snd (run_commonHandler w k argv)) in
  match mutex_claim w (handler_mutex argv) (claim_key argv) with
  | Throw e =>
      populate_count t = 0 /\ console_error_count t = 1
      /\ In (EConsoleError "Error running populate" e) t
  | Normal c =>
      populate_count t = 1
      /\ In (EPopulate (handler_api k argv) argv) t
      /\ match populate w (handler_api k argv) argv with
         | Normal _ => console_error_count t = 0
         | Throw e =>
             console_error_count t = 1
             /\ In (EConsoleError "Error running populate" e) t
         end
  end.
Proof.
  intros t. subst t.
  destruct (mutex_claim w (handler_mutex argv) (claim_key argv)) as [c | e] eqn:Hclaim.
  - rewrite (run_claim_ok _ _ _ _ Hclaim). cbn [snd trace].
    unfold populate_count, console_error_count.
    rewrite !count_filter_app.
    fold (populate_count (handler_prefix argv)).
    fold (console_error_count (handler_prefix argv)).
    rewrite populate_count_prefix, console_error_count_prefix.
    split; [| split].
    + destruct (populate w (handler_api k argv) argv); reflexivity.
    + apply in_or_app. right. right. left. reflexivity.
    + destruct (populate w (handler_api k argv) argv) as [u | e]; [reflexivity |].
      split; [reflexivity |].
      apply in_or_app. right. right. right. left. reflexivity.
  - rewrite (run_claim_throws _ _ _ _ Hclaim). cbn [snd trace].
    unfold populate_count, console_error_count.
    rewrite !count_filter_app.
    fold (populate_count (handler_prefix argv)).
    fold (console_error_count (handler_prefix argv)).
    rewrite populate_count_prefix, console_error_count_prefix.
    repeat split. apply in_or_app. right. left. reflexivity.
Qed.

(** The promise of [commonHandler] rejects in two cases only: with the
    [TypeError] of [claim.release()] on [undefined] when [mutex.claim]
    rejected, and with the error of [release()] when that rejects.  An
    error of [populate] is never what it rejects with. *)
Theorem commonHandler_rejects_iff
    (w : World) (k : Container) (argv : JsObject) (e : JsError) :
  fst (run_commonHandler w k argv) = Throw e
  <-> (exists e0, mutex_claim w (handler_mutex argv) (claim_key argv) = Throw e0
                  /\ e = release_of_undefined)
      \/ (exists c, mutex_claim w (handler_mutex argv) (claim_key argv) = Normal c
                    /\ claim_release w c = Throw e).
Proof.
  destruct (mutex_claim w (handler_mutex argv) (claim_key argv)) as [c | e0] eqn:Hclaim.
  - rewrite (run_claim_ok _ _ _ _ Hclaim). cbn [fst]. split.
    + intros H. right. exists c. split; [reflexivity |].
      destruct (claim_release w c); simpl in H; congruence.
    + intros [(e1 & H & _) | (c' & H & Hr)]; [discriminate |].
      injection H as <-. rewrite Hr. reflexivity.
  - rewrite (run_claim_throws _ _ _ _ Hclaim). cbn [fst]. split.
    + intros [= <-]. left. exists e0. split; reflexivity.
    + intros [(e1 & _ & ->) | (c' & H & _)]; [reflexivity | discriminate].
Qed.

Lemma commonHandler_rejects_iff_witness :
  fst (run_commonHandler locked_world default_container (argv_of "p"))
  = Throw release_of_undefined.
Proof.
  apply (commonHandler_rejects_iff locked_world default_container (argv_of "p")).
  left. exists lock_timeout. split; vm_compute; reflexivity.
Defined.

(** The binding of [GitOpsModuleApi] made under the branch strategy stays
    in the container: a later call of the handler in the same process,
    whatever its [lock], populates through [GitopsModulePRImpl]. *)
Theorem commonHandler_branch_binding_persists
    (w1 w2 : World) (k : Container) (argv1 argv2 : JsObject)
    (impl : GitOpsModuleApi) (a : JsObject) :
  field argv1 "lock" = JStr "branch" \/ field argv1 "lock" = JStr "b" ->
  In (EPopulate impl a)
     (trace (snd (run_commonHandler w2 (container (snd (run_commonHandler w1 k argv1)))
                                    argv2))) ->
  impl = GitopsModulePRImpl /\ a = argv2.
Proof.
  intros Hlock Hin.
  assert (Hb : wants_branch argv1 = true) by (apply wants_branch_spec; exact Hlock).
  assert (Hk : bound_api (container (snd (run_commonHandler w1 k argv1)))
               = GitopsModulePRImpl).
  { destruct (mutex_claim w1 (handler_mutex argv1) (claim_key argv1)) as [c | e] eqn:Hc.
    - rewrite (run_claim_ok _ _ _ _ Hc). cbn. unfold handler_api.
      fold (wants_branch argv1). rewrite Hb. reflexivity.
    - rewrite (run_claim_throws _ _ _ _ Hc). cbn. unfold handler_api.
      fold (wants_branch argv1). rewrite Hb. reflexivity. }
  set (k2 := container (snd (run_commonHandler w1 k argv1))) in *.
  assert (Ha : handler_api k2 argv2 = GitopsModulePRImpl).
  { unfold handler_api. rewrite Hk. destruct (_ || _); reflexivity. }
  destruct (mutex_claim w2 (handler_mutex argv2) (claim_key argv2)) as [c | e] eqn:Hc.
  - rewrite (run_claim_ok _ _ _ _ Hc) in Hin. cbn [snd trace] in Hin. rewrite Ha in Hin.
    apply in_app_or in Hin as [Hin | Hin].
    + unfold handler_prefix in Hin. destruct (wants_branch argv2); simpl in Hin;
        repeat (destruct Hin as [Hin | Hin]; [discriminate Hin |]); destruct Hin.
    + simpl in Hin. destruct Hin as [Hin | [Hin | Hin]]; [discriminate Hin | |].
      * injection Hin as <- <-. split; reflexivity.
      * apply in_app_or in Hin as [Hin | Hin].
        -- destruct (populate w2 GitopsModulePRImpl argv2); simpl in Hin;
             [destruct Hin | destruct Hin as [Hin | []]; discriminate Hin].
        -- destruct Hin as [Hin | []]; discriminate Hin.
  - rewrite (run_claim_throws _ _ _ _ Hc) in Hin. cbn [snd trace] in Hin.
    apply in_app_or in Hin as [Hin | Hin].
    + unfold handler_prefix in Hin. destruct (wants_branch argv2); simpl in Hin;
        repeat (destruct Hin as [Hin | Hin]; [discriminate Hin |]); destruct Hin.
    + destruct Hin as [Hin | []]; discriminate Hin.
Qed.

Lemma commonHandler_branch_binding_persists_witness :
  In (EPopulate GitopsModulePRImpl (argv_of "optimistic"))
     (trace (snd (run_commonHandler quiet_world
                    (container (snd (run_commonHandler quiet_world default_container
                                                       (argv_of "branch"))))
                    (argv_of "optimistic"))))
  /\ (GitopsModulePRImpl = GitopsModulePRImpl /\ argv_of "optimistic" = argv_of "optimistic").
Proof.
  assert (Hin : In (EPopulate GitopsModulePRImpl (argv_of "optimistic"))
     (trace (snd (run_commonHandler quiet_world
                    (container (snd (run_commonHandler quiet_world default_container
                                                       (argv_of "branch"))))
                    (argv_of "optimistic"))))).
  { vm_compute. right. right. right. right. left. reflexivity. }
  split; [exact Hin |].
  apply (commonHandler_branch_binding_persists quiet_world quiet_world default_container
           (argv_of "branch") (argv_of "optimistic") _ _); [| exact Hin].
  left. vm_compute; reflexivity.
Defined.

(** ** Secrets and service accounts of [NamespaceImpl] *)

Section SecretFacts.
Import NamespaceSecrets.

Lemma any_false_filter (l : list string) (test : string -> bool) :
  any l test = false <-> List.filter test l = [].
Proof.
  unfold any. destruct (List.filter test l); split; intros H;
    try reflexivity; discriminate H.
Qed.

Lemma filter_head (l : list string) (test : string -> bool) (x : string)
    (rest : list string) :
  List.filter test l = x :: rest ->
  exists before after,
    l = before ++ x :: after /\ test x = true
    /\ Forall (fun y => test y = false) before.
Proof.
  induction l as [| y l IH]; simpl; [discriminate |].
  destruct (test y) eqn:Ey.
  - intros [= -> <-]. exists [], l. auto.
  - intros H. destruct (IH H) as (before & after & -> & Hx & Hall).
    exists (y :: before), after. auto.
Qed.

Lemma filter_skips (test : string -> bool) (before : list string) (l : list string) :
  Forall (fun y => test y = false) before ->
  List.filter test (before ++ l) = List.filter test l.
Proof.
  induction 1 as [| y before Hy _ IH]; simpl; [reflexivity |]. rewrite Hy. exact IH.
Qed.

Lemma first_throws_iff (l : list string) (test : string -> bool) :
  any l test = false
  <-> first l test = Throw (Thrown "Error" "List is empty after applying filter").
Proof.
  rewrite any_false_filter. unfold first.
  destruct (List.filter test l); split; congruence.
Qed.

Lemma first_normal (l : list string) (test : string -> bool) (x : string) :
  first l test = Normal x ->
  exists before after,
    l = before ++ x :: after /\ test x = true /\ Forall (fun y => test y = false) before.
Proof.
  unfold first. destruct (List.filter test l) as [| y rest] eqn:E; [discriminate |].
  intros [= ->]. exact (filter_head _ _ _ _ E).
Qed.

End SecretFacts.

(** [first] throws its [Error] exactly when [any] is false, that is when no
    element of the list passes the test; otherwise it returns the element
    that passes the test and has no passing element before it. *)
Theorem first_returns_the_earliest_passing_element
    (l : list string) (test : string -> bool) :
  (NamespaceSecrets.any l test = false
   <-> NamespaceSecrets.first l test
       = Throw (Thrown "Error" "List is empty after applying filter"))
  /\ (NamespaceSecrets.any l test = false <-> Forall (fun y => test y = false) l)
  /\ forall x,
       NamespaceSecrets.first l test = Normal x
       <-> exists before after,
             l = before ++ x :: after /\ test x = true
             /\ Forall (fun y => test y = false) before.
Proof.
  split; [| split].
  - rewrite any_false_filter. unfold NamespaceSecrets.first.
    destruct (List.filter test l); split; congruence.
  - rewrite any_false_filter. split.
    + intros H. apply Forall_forall. intros y Hy.
      destruct (test y) eqn:Ey; [| reflexivity].
      assert (Hin : In y (List.filter test l))
        by (apply List.filter_In; split; [apply list_elem_of_In; exact Hy | exact Ey]).
      rewrite H in Hin. destruct Hin.
    + intros H. rewrite <- (app_nil_r l). rewrite filter_skips by exact H. reflexivity.
  - intros x. unfold NamespaceSecrets.first. split.
    + destruct (List.filter test l) as [| y rest] eqn:E; [discriminate |].
      intros [= ->]. exact (filter_head _ _ _ _ E).
    + intros (before & after & -> & Hx & Hall).
      rewrite filter_skips by exact Hall. simpl. rewrite Hx. reflexivity.
Qed.

(** The [map] of [buildPullSecretListOptions] succeeds exactly on the
    secrets that its [filter] accepts, and throws on the others; when it
    succeeds it changes nothing but the name, which is rewritten with the
    first pattern that matches it. *)
Theorem pull_secret_map_succeeds_exactly_on_filtered_secrets
    (re : RegExpEngine) (fromNamespace : string) (secret : NamespaceSecrets.Secret) :
  let options := NamespaceSecrets.buildPullSecretListOptions re fromNamespace in
  let name := NamespaceSecrets.md_name (NamespaceSecrets.metadata secret) in
  NamespaceSecrets.lo_namespace options = fromNamespace
  /\ (NamespaceSecrets.lo_filter options secret = true
      <-> exists secret', NamespaceSecrets.lo_map options secret = Normal secret')
  /\ (NamespaceSecrets.lo_filter options secret = false
      <-> NamespaceSecrets.lo_map options secret
          = Throw (Thrown "Error" "List is empty after applying filter"))
  /\ forall secret',
       NamespaceSecrets.lo_map options secret = Normal secret' ->
       NamespaceSecrets.data secret' = NamespaceSecrets.data secret
       /\ NamespaceSecrets.secret_others secret' = NamespaceSecrets.secret_others secret
       /\ NamespaceSecrets.md_others (NamespaceSecrets.metadata secret')
          = NamespaceSecrets.md_others (NamespaceSecrets.metadata secret)
       /\ exists before pattern after,
            NamespaceSecrets.patterns fromNamespace = before ++ pattern :: after
            /\ re_test re pattern name = true
            /\ Forall (fun p => re_test re p name = false) before
            /\ NamespaceSecrets.md_name (NamespaceSecrets.metadata secret')
               = re_replace re pattern name "$1".
Proof.
  intros options name. subst options. cbn [NamespaceSecrets.buildPullSecretListOptions
    NamespaceSecrets.lo_namespace NamespaceSecrets.lo_filter NamespaceSecrets.lo_map].
  fold name.
  pose proof (first_throws_iff (NamespaceSecrets.patterns fromNamespace)
                (fun pattern => re_test re pattern name)) as Hthrow.
  destruct (NamespaceSecrets.first (NamespaceSecrets.patterns fromNamespace)
              (fun pattern => re_test re pattern name)) as [p | e] eqn:E.
  - assert (Hany : NamespaceSecrets.any (NamespaceSecrets.patterns fromNamespace)
                     (fun pattern => re_test re pattern name) = true).
    { destruct (NamespaceSecrets.any _ _); [reflexivity |].
      destruct Hthrow as [Hthrow _]. discriminate (Hthrow eq_refl). }
    rewrite Hany. split; [| split; [| split]].
    + reflexivity.
    + split; [intros _; eexists; reflexivity | reflexivity].
    + split; discriminate.
    + intros secret' [= <-]. simpl. repeat split.
      destruct (first_normal _ _ _ E) as (before & after & Hl & Hp & Hall).
      exists before, p, after. auto.
  - assert (He : e = Thrown "Error" "List is empty after applying filter").
    { unfold NamespaceSecrets.first in E.
      destruct (List.filter _ _); [congruence | discriminate]. }
    subst e.
    assert (Hany : NamespaceSecrets.any (NamespaceSecrets.patterns fromNamespace)
                     (fun pattern => re_test re pattern name) = false)
      by (apply Hthrow; reflexivity).
    rewrite Hany. split; [| split; [| split]].
    + reflexivity.
    + split; [discriminate | intros [s' H]; discriminate H].
    + split; reflexivity.
    + intros secret' H. discriminate H.
Qed.

Lemma pull_secret_map_succeeds_exactly_on_filtered_secrets_witness :
  NamespaceSecrets.md_others
    (NamespaceSecrets.metadata
       (NamespaceSecrets.mkSecret
          (NamespaceSecrets.mkMetadata "tools-us-icr-io" {[ "namespace" := "tools" ]})
          None ∅))
  = {[ "namespace" := "tools" ]}.
Proof.
  destruct (pull_secret_map_succeeds_exactly_on_filtered_secrets
              NamespaceSecrets.example_engine "tools"
              (NamespaceSecrets.mkSecret
                 (NamespaceSecrets.mkMetadata "tools-us-icr-io" {[ "namespace" := "tools" ]})
                 None ∅)) as (_ & _ & _ & H).
  destruct (H _ eq_refl) as (_ & _ & Hothers & _). symmetry. exact Hothers.
Defined.

Section NameFacts.
Import NamespaceSecrets.

Lemma push_new_spec (acc l : list string) :
  NoDup acc ->
  NoDup (fold_left push_new l acc)
  /\ (forall x, In x (fold_left push_new l acc) <-> In x acc \/ In x l)
  /\ exists added, fold_left push_new l acc = acc ++ added /\ sublist added l.
Proof.
  revert acc. induction l as [| y l IH]; intros acc Hnd; simpl.
  - repeat split; [exact Hnd | tauto | intros [H | []]; exact H |].
    exists []. rewrite app_nil_r. split; [reflexivity | constructor].
  - unfold push_new at 2 4 6. destruct (NamespaceImpl.includes acc y) eqn:Ei.
    + apply includes_In in Ei. destruct (IH acc Hnd) as (H1 & H2 & added & H3 & H4).
      repeat split; [exact H1 | | |].
      * intros H. apply H2 in H. tauto.
      * intros [H | [<- | H]]; apply H2; tauto.
      * exists added. split; [exact H3 | apply sublist_cons; exact H4].
    + assert (Hnot : ~ In y acc).
      { intros H. apply includes_In in H. congruence. }
      assert (Hnd' : NoDup (acc ++ [y])).
      { apply NoDup_app. repeat split; [exact Hnd | | apply NoDup_singleton].
        intros x Hx Hx'. apply list_elem_of_singleton in Hx'. subst x.
        apply Hnot, list_elem_of_In, Hx. }
      destruct (IH (acc ++ [y]) Hnd') as (H1 & H2 & added & H3 & H4).
      repeat split; [exact H1 | | |].
      * intros H. apply H2 in H. rewrite in_app_iff in H. simpl in H. tauto.
      * intros H. apply H2. rewrite in_app_iff. simpl. tauto.
      * exists (y :: added). rewrite H3, <- app_assoc. split; [reflexivity |].
        apply sublist_skip. exact H4.
Qed.

Lemma push_new_distinct (acc l : list string) :
  NoDup (acc ++ l) -> fold_left push_new l acc = acc ++ l.
Proof.
  revert acc. induction l as [| y l IH]; intros acc Hnd; simpl.
  - rewrite app_nil_r. reflexivity.
  - assert (Hnd' : NoDup ((acc ++ [y]) ++ l)) by (rewrite <- app_assoc; exact Hnd).
    unfold push_new at 2. destruct (NamespaceImpl.includes acc y) eqn:Ei.
    + apply includes_In in Ei. apply NoDup_app in Hnd as (_ & Hdisj & _).
      exfalso. apply (Hdisj y); [apply list_elem_of_In; exact Ei | left].
    + rewrite (IH _ Hnd'), <- app_assoc. reflexivity.
Qed.

(** A string that enters at its first occurrence stands in the result
    right after what came before it. *)
Lemma push_new_first_occurrence (acc before after : list string) (x : string) :
  NoDup acc -> ~ In x acc -> ~ In x before ->
  exists earlier later,
    fold_left push_new (before ++ x :: after) acc = earlier ++ x :: later
    /\ forall y, In y earlier <-> In y acc \/ In y before.
Proof.
  intros Hnd Hacc Hbefore.
  destruct (push_new_spec acc before Hnd) as (Hnd1 & Hin1 & _).
  set (r1 := fold_left push_new before acc) in *.
  assert (Hx : NamespaceImpl.includes r1 x = false).
  { destruct (NamespaceImpl.includes r1 x) eqn:E; [| reflexivity].
    apply includes_In, Hin1 in E. tauto. }
  assert (Hnd2 : NoDup (r1 ++ [x])).
  { apply NoDup_app. repeat split; [exact Hnd1 | | apply NoDup_singleton].
    intros y Hy Hy'. apply list_elem_of_singleton in Hy'. subst y.
    apply list_elem_of_In, includes_In in Hy. congruence. }
  destruct (push_new_spec (r1 ++ [x]) after Hnd2) as (_ & _ & added & Hadd & _).
  exists r1, added. split; [| exact Hin1].
  rewrite fold_left_app. cbn [fold_left]. fold r1.
  unfold push_new at 2. rewrite Hx, Hadd, <- app_assoc. reflexivity.
Qed.

Lemma push_new_object_fresh (names : list string) (next : nat) (acc : list SecretRef) :
  Forall (fun r => object_id r < next) acc ->
  fold_left push_new_object (new_refs next names) acc = acc ++ new_refs next names.
Proof.
  revert next acc. induction names as [| n names IH]; intros next acc Hacc; simpl.
  - rewrite app_nil_r. reflexivity.
  - assert (Hfresh : includes_object acc (mkSecretRef next n) = false).
    { unfold includes_object. apply not_true_is_false. intros H.
      apply existsb_exists in H as (y & Hy & Heq). simpl in Heq.
      apply Nat.eqb_eq in Heq. rewrite Forall_forall in Hacc.
      specialize (Hacc y (proj2 (list_elem_of_In _ _) Hy)). lia. }
    unfold push_new_object at 2. rewrite Hfresh. simpl.
    rewrite IH.
    + rewrite <- app_assoc. reflexivity.
    + apply Forall_app. split.
      * eapply Forall_impl; [exact Hacc |]. simpl. intros r Hr. lia.
      * constructor; [simpl; lia | constructor].
Qed.

Lemma new_refs_names (next : nat) (names : list string) :
  map ref_name (new_refs next names) = names.
Proof.
  revert next. induction names as [| n names IH]; intros next; simpl;
    [reflexivity | rewrite IH; reflexivity].
Qed.

End NameFacts.

(** [getServiceAccountSecretNames] returns the names of [secrets] followed
    by those of [imagePullSecrets], each once, in the order of their first
    occurrence: no name is returned twice, the names returned are the
    names listed, and a name stands in the result after exactly the names
    that are listed before its first occurrence.  Names that are distinct
    already are returned as listed; without a service account the result
    is empty. *)
Theorem getServiceAccountSecretNames_are_the_distinct_names
    (serviceAccount : NamespaceSecrets.ServiceAccount) :
  let listed :=
    map NamespaceSecrets.ref_name
        (default [] (NamespaceSecrets.secrets serviceAccount)
         ++ default [] (NamespaceSecrets.imagePullSecrets serviceAccount)) in
  let names := NamespaceSecrets.getServiceAccountSecretNames (Some serviceAccount) in
  NoDup names
  /\ (forall n, In n names <-> In n listed)
  /\ sublist names listed
  /\ (forall before x after,
        listed = before ++ x :: after -> ~ In x before ->
        exists earlier later,
          names = earlier ++ x :: later
          /\ forall y, In y earlier <-> In y before)
  /\ (NoDup listed -> names = listed)
  /\ NamespaceSecrets.getServiceAccountSecretNames None = [].
Proof.
  intros listed names. subst listed names.
  unfold NamespaceSecrets.getServiceAccountSecretNames. cbn [mbind option_bind app].
  set (l := map NamespaceSecrets.ref_name _).
  destruct (push_new_spec [] l NoDup_nil_2) as (H1 & H2 & added & H3 & H4).
  split; [exact H1 |]. split; [| split; [| split; [| split]]].
  - intros n. rewrite H2. simpl. tauto.
  - rewrite H3. exact H4.
  - intros before x after Hl Hx. rewrite Hl.
    destruct (push_new_first_occurrence [] before after x NoDup_nil_2 (fun H => H) Hx)
      as (earlier & later & Heq & Hin).
    exists earlier, later. split; [exact Heq |].
    intros y. rewrite Hin. simpl. tauto.
  - intros Hnd. apply (push_new_distinct [] l). exact Hnd.
  - reflexivity.
Qed.

Lemma getServiceAccountSecretNames_are_the_distinct_names_witness :
  exists earlier later,
    NamespaceSecrets.getServiceAccountSecretNames
      (Some (NamespaceSecrets.mkServiceAccount "jenkins" "tools"
               (Some [NamespaceSecrets.mkSecretRef 0 "all-icr-io";
                      NamespaceSecrets.mkSecretRef 1 "jenkins-token"])
               (Some [NamespaceSecrets.mkSecretRef 2 "all-icr-io"])))
    = earlier ++ "jenkins-token" :: later
    /\ forall y, In y earlier <-> In y ["all-icr-io"].
Proof.
  destruct (getServiceAccountSecretNames_are_the_distinct_names
              (NamespaceSecrets.mkServiceAccount "jenkins" "tools"
                 (Some [NamespaceSecrets.mkSecretRef 0 "all-icr-io";
                        NamespaceSecrets.mkSecretRef 1 "jenkins-token"])
                 (Some [NamespaceSecrets.mkSecretRef 2 "all-icr-io"])))
    as (_ & _ & _ & H & _).
  apply (H ["all-icr-io"] "jenkins-token" ["all-icr-io"]); [reflexivity |].
  intros [Heq | []]. discriminate Heq.
Defined.

(** [updateServiceAccountWithPullSecretsMatchingPattern] appends one entry
    for every listed secret whose name matches the pattern, also when the
    account already has an entry of that name: [includes] compares the
    newly created objects with the existing ones by identity, so that no
    entry is ever left out.  The other properties of the account are kept. *)
Theorem updateServiceAccount_appends_every_matching_secret
    (re : RegExpEngine) (listed : list NamespaceSecrets.Secret)
    (serviceAccount : NamespaceSecrets.ServiceAccount) (pattern : string) (next : nat) :
  NamespaceSecrets.allocated_before next serviceAccount ->
  let updated :=
    NamespaceSecrets.updateServiceAccountWithPullSecretsMatchingPattern
      re listed serviceAccount pattern next in
  let matching :=
    map (fun secret => NamespaceSecrets.md_name (NamespaceSecrets.metadata secret))
        (List.filter
           (fun secret =>
              re_match re (NamespaceSecrets.md_name (NamespaceSecrets.metadata secret)) pattern)
           listed) in
  map NamespaceSecrets.ref_name (default [] (NamespaceSecrets.imagePullSecrets updated))
  = map NamespaceSecrets.ref_name
        (default [] (NamespaceSecrets.imagePullSecrets serviceAccount))
    ++ matching
  /\ NamespaceSecrets.secrets updated = NamespaceSecrets.secrets serviceAccount
  /\ NamespaceSecrets.sa_name updated = NamespaceSecrets.sa_name serviceAccount
  /\ NamespaceSecrets.sa_namespace updated = NamespaceSecrets.sa_namespace serviceAccount.
Proof.
  intros Halloc updated matching. subst updated.
  unfold NamespaceSecrets.updateServiceAccountWithPullSecretsMatchingPattern,
    NamespaceSecrets.listMatchingSecrets.
  cbn [NamespaceSecrets.imagePullSecrets NamespaceSecrets.secrets
       NamespaceSecrets.sa_name NamespaceSecrets.sa_namespace default].
  fold matching. rewrite push_new_object_fresh by exact Halloc.
  unfold id. rewrite List.map_app, new_refs_names. repeat split.
Qed.

Lemma updateServiceAccount_appends_every_matching_secret_witness :
  map NamespaceSecrets.ref_name
    (default []
       (NamespaceSecrets.imagePullSecrets
          (NamespaceSecrets.updateServiceAccountWithPullSecretsMatchingPattern
             NamespaceSecrets.example_engine
             [NamespaceSecrets.mkSecret (NamespaceSecrets.mkMetadata "all-icr-io" ∅) None ∅]
             (NamespaceSecrets.mkServiceAccount "default" "dev" None
                (Some [NamespaceSecrets.mkSecretRef 0 "all-icr-io"]))
             ".*icr-io" 1)))
  = ["all-icr-io"; "all-icr-io"].
Proof.
  destruct (updateServiceAccount_appends_every_matching_secret
              NamespaceSecrets.example_engine
              [NamespaceSecrets.mkSecret (NamespaceSecrets.mkMetadata "all-icr-io" ∅) None ∅]
              (NamespaceSecrets.mkServiceAccount "default" "dev" None
                 (Some [NamespaceSecrets.mkSecretRef 0 "all-icr-io"]))
              ".*icr-io" 1) as (H & _).
  - unfold NamespaceSecrets.allocated_before. simpl. repeat constructor.
  - exact H.
Defined.

(** ** [NamespaceImpl.create] *)

Section CreateFacts.
Import NamespaceImpl NamespaceCreate.

Lemma bind_run {A B : Type} (m : N A) (f : A -> N B) (st : State) :
  (m ≫= f) st
  = match m st with
    | (Normal a, st') => f a st'
    | (Throw e, st') => (Throw e, st')
    end.
Proof. reflexivity. Qed.

Lemma bind_normal {A B : Type} (m : N A) (f : A -> N B) (st st' : State) (b : B) :
  (m ≫= f) st = (Normal b, st') ->
  exists a st1, m st = (Normal a, st1) /\ f a st1 = (Normal b, st').
Proof.
  rewrite bind_run. destruct (m st) as [[a | e] st1]; [eauto | discriminate].
Qed.

Lemma only_ret {A : Type} (R : Call -> bool) (a : A) : only R (mret a : N A).
Proof. intros st. exists []. rewrite app_nil_r. split; reflexivity. Qed.

Lemma only_throw {A : Type} (R : Call -> bool) (e : JsError) :
  only R (throw_error e : N A).
Proof. intros st. exists []. rewrite app_nil_r. split; reflexivity. Qed.

Lemma only_call {A : Type} (R : Call -> bool) (c : Call) (p : Completion A) :
  R c = true -> only R (call c p).
Proof. intros Hc st. exists [c]. simpl. rewrite Hc. split; reflexivity. Qed.

Lemma only_on_cluster {A : Type} (R : Call -> bool) (m : K A) : only R (on_cluster m).
Proof.
  intros st. exists []. unfold on_cluster. destruct (m (cluster st)).
  rewrite app_nil_r. split; reflexivity.
Qed.

Lemma only_bind {A B : Type} (R : Call -> bool) (m : N A) (f : A -> N B) :
  only R m -> (forall a, only R (f a)) -> only R (m ≫= f).
Proof.
  intros Hm Hf st. rewrite bind_run. destruct (Hm st) as (n1 & H1 & Hall1).
  destruct (m st) as [[a | e] st1]; simpl in *.
  - destruct (Hf a st1) as (n2 & H2 & Hall2). exists (n1 ++ n2).
    rewrite H2, H1, <- app_assoc, forallb_app, Hall1, Hall2. split; reflexivity.
  - exists n1. auto.
Qed.

Lemma only_try_catch {A : Type} (R : Call -> bool) (m : N A) (h : JsError -> N A) :
  only R m -> (forall e, only R (h e)) -> only R (try_catch m h).
Proof.
  intros Hm Hh st. unfold try_catch. destruct (Hm st) as (n1 & H1 & Hall1).
  destruct (m st) as [[a | e] st1]; simpl in *.
  - exists n1. auto.
  - destruct (Hh e st1) as (n2 & H2 & Hall2). exists (n1 ++ n2).
    rewrite H2, H1, <- app_assoc, forallb_app, Hall1, Hall2. split; reflexivity.
Qed.

Lemma only_start_copy (R : Call -> bool) (kube : Kube) (r : Returned) :
  (forall client options toNamespace, R (CopyAll client options toNamespace) = true) ->
  only R (start_copy kube r).
Proof.
  intros H st. destruct r as [| client options toNamespace]; simpl in *.
  - exists []. rewrite app_nil_r. split; reflexivity.
  - exists [CopyAll client options toNamespace]. simpl. rewrite H. split; reflexivity.
Qed.

Lemma only_start_copy_undefined (R : Call -> bool) (kube : Kube) :
  only R (start_copy kube ReturnUndefined).
Proof. intros st. exists []. rewrite app_nil_r. split; reflexivity. Qed.

Lemma keeps_ret {A : Type} (a : A) : keeps_cluster (mret a : N A).
Proof. intros st. reflexivity. Qed.

Lemma keeps_call {A : Type} (c : Call) (p : Completion A) : keeps_cluster (call c p).
Proof. intros st. reflexivity. Qed.

Lemma keeps_bind {A B : Type} (m : N A) (f : A -> N B) :
  keeps_cluster m -> (forall a, keeps_cluster (f a)) -> keeps_cluster (m ≫= f).
Proof.
  intros Hm Hf st. rewrite bind_run. specialize (Hm st).
  destruct (m st) as [[a | e] st1]; simpl in *; [rewrite Hf |]; exact Hm.
Qed.

Lemma keeps_try_catch {A : Type} (m : N A) (h : JsError -> N A) :
  keeps_cluster m -> (forall e, keeps_cluster (h e)) -> keeps_cluster (try_catch m h).
Proof.
  intros Hm Hh st. unfold try_catch. specialize (Hm st).
  destruct (m st) as [[a | e] st1]; simpl in *; [| rewrite Hh]; exact Hm.
Qed.

Lemma keeps_start_copy (kube : Kube) (r : Returned) : keeps_cluster (start_copy kube r).
Proof. intros st. destruct r; reflexivity. Qed.

End CreateFacts.

(** Proves [only R m] and [keeps_cluster m] along the structure of [m]. *)
Ltac only_calls :=
  repeat first
    [ apply only_bind; [| intros ?]
    | apply only_try_catch; [| intros ?]
    | apply only_ret
    | apply only_throw
    | apply only_on_cluster
    | apply only_call; reflexivity
    | apply only_start_copy_undefined
    | apply only_start_copy; intros ? ? ?; reflexivity ].

Ltac keeps :=
  repeat first
    [ apply keeps_bind; [| intros ?]
    | apply keeps_try_catch; [| intros ?]
    | apply keeps_ret
    | apply keeps_call
    | apply keeps_start_copy ].

Section CreateBlocks.
Import NamespaceImpl NamespaceCreate.

(** Outside [ensure_namespace] nothing is created, and before [set_current]
    no command is executed. *)
Lemma branch_never_creates (kube : Kube) (o : NamespaceOptionsModel) :
  only (fun c => negb (is_create c))
       (if argocd o then argocd_branch kube o else copy_branch kube o).
Proof.
  destruct (argocd o); unfold argocd_branch, copy_branch, tekton_statement,
    grantPermissionToArgoCD, notifyStatus; [only_calls |].
  destruct (tekton o); only_calls.
Qed.

Lemma branch_never_executes (kube : Kube) (o : NamespaceOptionsModel) :
  only (fun c => negb (is_exec c))
       (if argocd o then argocd_branch kube o else copy_branch kube o).
Proof.
  destruct (argocd o); unfold argocd_branch, copy_branch, tekton_statement,
    grantPermissionToArgoCD, notifyStatus; [only_calls |].
  destruct (tekton o); only_calls.
Qed.

Lemma set_current_never_creates (kube : Kube) (label namespace : string) :
  only (fun c => negb (is_create c)) (set_current kube label namespace).
Proof. unfold set_current, setCurrentProject, notifyStatus. only_calls. Qed.

Lemma ensure_namespace_never_executes (kube : Kube) (m : Manager) (label namespace : string) :
  only (fun c => negb (is_exec c)) (ensure_namespace kube m label namespace).
Proof.
  unfold ensure_namespace, notifyStatus. only_calls.
  destruct (negb _); only_calls.
Qed.

Lemma filter_none {A : Type} (f : A -> bool) (l : list A) :
  forallb (fun x => negb (f x)) l = true -> List.filter f l = [].
Proof.
  induction l as [| x l IH]; simpl; [reflexivity |].
  destruct (f x); simpl; [discriminate | exact IH].
Qed.

End CreateBlocks.

(** The [create] calls of [create] once the cluster type is known and the
    manager has reported whether the namespace exists. *)
Lemma create_calls_when_exists_resolves
    (kube : NamespaceCreate.Kube) (o : NamespaceCreate.NamespaceOptionsModel)
    (c : NamespaceImpl.Cluster) (ct : string * string) (found : bool) :
  NamespaceCreate.getClusterType kube (NamespaceCreate.templateNamespace o) = Normal ct ->
  NamespaceCreate.manager_exists kube (NamespaceCreate.manager_for (fst ct))
                                 (NamespaceCreate.namespace o) = Normal found ->
  List.filter NamespaceCreate.is_create
              (NamespaceCreate.calls (snd (NamespaceCreate.run_create kube o c)))
  = if found then []
    else [NamespaceCreate.Create (NamespaceCreate.manager_for (fst ct))
                                 (NamespaceCreate.namespace o)].
Proof.
  intros Hct Hfound.
  unfold NamespaceCreate.run_create, NamespaceCreate.create.
  rewrite bind_run. unfold NamespaceCreate.call at 1. rewrite Hct.
  cbn [NamespaceCreate.cluster NamespaceCreate.calls app].
  fold (NamespaceCreate.manager_for ct.1).
  set (label := if String.eqb ct.1 "openshift" then "project" else "namespace").
  set (rest := (if NamespaceCreate.argocd o then _ else _) ≫= _).
  assert (Hrest : NamespaceCreate.only (fun c => negb (NamespaceCreate.is_create c)) rest).
  { apply only_bind; [apply branch_never_creates |].
    intros _. apply set_current_never_creates. }
  rewrite bind_run. unfold NamespaceCreate.ensure_namespace.
  rewrite bind_run. unfold NamespaceCreate.notifyStatus at 1, NamespaceCreate.call at 1.
  cbn [NamespaceCreate.cluster NamespaceCreate.calls app].
  rewrite bind_run. unfold NamespaceCreate.call at 1. rewrite Hfound.
  cbn [NamespaceCreate.cluster NamespaceCreate.calls app].
  destruct found; cbn [negb].
  - unfold mret, NamespaceCreate.N_ret.
    destruct (Hrest (NamespaceCreate.mkState c
                       ([NamespaceCreate.GetClusterType (NamespaceCreate.templateNamespace o)]
                        ++ [NamespaceCreate.NotifyStatus
                              ("Checking for existing " +:+ label +:+ ": "
                               +:+ NamespaceCreate.namespace o)]
                        ++ [NamespaceCreate.Exists (NamespaceCreate.manager_for ct.1)
                              (NamespaceCreate.namespace o)])))
      as (new & Hnew & Hall).
    simpl in Hnew. simpl. rewrite Hnew. simpl. apply filter_none. exact Hall.
  - rewrite bind_run. unfold NamespaceCreate.notifyStatus, NamespaceCreate.call.
    cbn [NamespaceCreate.cluster NamespaceCreate.calls app].
    destruct (NamespaceCreate.manager_create kube _ _) as [u | e]; [| reflexivity].
    match goal with |- context [rest ?st] => destruct (Hrest st) as (new & Hnew & Hall) end.
    simpl in Hnew. rewrite Hnew. simpl. rewrite (filter_none _ _ Hall). reflexivity.
Qed.

(** The [create] calls of [create] when the cluster type cannot be read
    or the manager cannot tell whether the namespace exists: the promise
    rejects with that error, before anything is created. *)
Lemma create_stops_without_cluster_type
    (kube : NamespaceCreate.Kube) (o : NamespaceCreate.NamespaceOptionsModel)
    (c : NamespaceImpl.Cluster) (e : JsError) :
  NamespaceCreate.getClusterType kube (NamespaceCreate.templateNamespace o) = Throw e ->
  NamespaceCreate.run_create kube o c
  = (Throw e,
     NamespaceCreate.mkState c
       [NamespaceCreate.GetClusterType (NamespaceCreate.templateNamespace o)]).
Proof.
  intros Hct. unfold NamespaceCreate.run_create, NamespaceCreate.create.
  rewrite bind_run. unfold NamespaceCreate.call at 1. rewrite Hct. reflexivity.
Qed.

Lemma create_stops_without_exists
    (kube : NamespaceCreate.Kube) (o : NamespaceCreate.NamespaceOptionsModel)
    (c : NamespaceImpl.Cluster) (ct : string * string) (e : JsError) :
  NamespaceCreate.getClusterType kube (NamespaceCreate.templateNamespace o) = Normal ct ->
  NamespaceCreate.manager_exists kube (NamespaceCreate.manager_for (fst ct))
                                 (NamespaceCreate.namespace o) = Throw e ->
  fst (NamespaceCreate.run_create kube o c) = Throw e
  /\ List.filter NamespaceCreate.is_create
                 (NamespaceCreate.calls (snd (NamespaceCreate.run_create kube o c))) = [].
Proof.
  intros Hct Hfound.
  assert (H : exists label,
             NamespaceCreate.run_create kube o c
             = (Throw e,
                NamespaceCreate.mkState c
                  [NamespaceCreate.GetClusterType (NamespaceCreate.templateNamespace o);
                   NamespaceCreate.NotifyStatus
                     ("Checking for existing " ++ label ++ ": "
                      ++ NamespaceCreate.namespace o)%string;
                   NamespaceCreate.Exists (NamespaceCreate.manager_for (fst ct))
                                          (NamespaceCreate.namespace o)])).
  { eexists. unfold NamespaceCreate.run_create, NamespaceCreate.create.
    rewrite bind_run. unfold NamespaceCreate.call at 1. rewrite Hct.
    cbn [NamespaceCreate.cluster NamespaceCreate.calls app].
    fold (NamespaceCreate.manager_for ct.1).
    rewrite bind_run. unfold NamespaceCreate.ensure_namespace.
    rewrite bind_run. unfold NamespaceCreate.notifyStatus at 1, NamespaceCreate.call at 1.
    cbn [NamespaceCreate.cluster NamespaceCreate.calls app].
    rewrite bind_run. unfold NamespaceCreate.call at 1. rewrite Hfound.
    reflexivity. }
  destruct H as [label ->]. split; reflexivity.
Qed.

(** [create] creates the namespace, through the manager of the cluster
    type, exactly when the cluster type has been read and that manager has
    reported that the namespace does not exist, and then once.  It never
    creates a namespace otherwise: not when the manager reports that it
    exists, not when the promise of [exists] or of [getClusterType]
    rejects (then [create] rejects with that error), and never through
    the other manager. *)
Theorem create_makes_the_namespace_only_when_missing
    (kube : NamespaceCreate.Kube) (o : NamespaceCreate.NamespaceOptionsModel)
    (c : NamespaceImpl.Cluster) :
  let run := NamespaceCreate.run_create kube o c in
  List.filter NamespaceCreate.is_create (NamespaceCreate.calls (snd run))
  = match NamespaceCreate.getClusterType kube (NamespaceCreate.templateNamespace o) with
    | Normal ct =>
        match NamespaceCreate.manager_exists kube (NamespaceCreate.manager_for (fst ct))
                (NamespaceCreate.namespace o) with
        | Normal false =>
            [NamespaceCreate.Create (NamespaceCreate.manager_for (fst ct))
                                    (NamespaceCreate.namespace o)]
        | Normal true => []
        | Throw _ => []
        end
    | Throw _ => []
    end
  /\ (forall e,
        NamespaceCreate.getClusterType kube (NamespaceCreate.templateNamespace o) = Throw e ->
        fst run = Throw e)
  /\ (forall ct e,
        NamespaceCreate.getClusterType kube (NamespaceCreate.templateNamespace o) = Normal ct ->
        NamespaceCreate.manager_exists kube (NamespaceCreate.manager_for (fst ct))
                                       (NamespaceCreate.namespace o) = Throw e ->
        fst run = Throw e).
Proof.
  intros run. subst run. split; [| split].
  - destruct (NamespaceCreate.getClusterType kube (NamespaceCreate.templateNamespace o))
      as [ct | e] eqn:Hct.
    + destruct (NamespaceCreate.manager_exists kube (NamespaceCreate.manager_for (fst ct))
                  (NamespaceCreate.namespace o)) as [found | e] eqn:Hfound.
      * rewrite (create_calls_when_exists_resolves kube o c ct found Hct Hfound).
        destruct found; reflexivity.
      * apply (create_stops_without_exists kube o c ct e Hct Hfound).
    + rewrite (create_stops_without_cluster_type kube o c e Hct). reflexivity.
  - intros e Hct. rewrite (create_stops_without_cluster_type kube o c e Hct). reflexivity.
  - intros ct e Hct Hfound. apply (create_stops_without_exists kube o c ct e Hct Hfound).
Qed.

Lemma create_makes_the_namespace_only_when_missing_witness :
  fst (NamespaceCreate.run_create NamespaceCreate.no_cluster_kube
         (NamespaceCreate.mkOptions "dev" "tools" "default" false false "argocd")
         NamespaceCreate.empty_cluster)
  = Throw NamespaceCreate.forbidden.
Proof.
  destruct (create_makes_the_namespace_only_when_missing NamespaceCreate.no_cluster_kube
              (NamespaceCreate.mkOptions "dev" "tools" "default" false false "argocd")
              NamespaceCreate.empty_cluster) as (_ & H & _).
  apply (H NamespaceCreate.forbidden). reflexivity.
Defined.


Section CreateSplit.
Import NamespaceImpl NamespaceCreate.

Lemma create_split (kube : Kube) (o : NamespaceOptionsModel) (st : State) :
  create kube o st
  = (before_set_current kube o ≫= fun label => set_current kube label (namespace o)) st.
Proof.
  unfold create, before_set_current. rewrite !bind_run.
  destruct (call _ _ st) as [[ct | e] st1]; [| reflexivity].
  cbv zeta. rewrite !bind_run.
  destruct (ensure_namespace _ _ _ _ st1) as [[u | e] st2]; [| reflexivity].
  rewrite !bind_run. destruct (argocd o).
  - destruct (argocd_branch kube o st2) as [[u' | e] st3]; reflexivity.
  - destruct (copy_branch kube o st2) as [[u' | e] st3]; reflexivity.
Qed.

Lemma before_set_current_never_executes (kube : Kube) (o : NamespaceOptionsModel) :
  only (fun c => negb (is_exec c)) (before_set_current kube o).
Proof.
  unfold before_set_current. apply only_bind; [apply only_call; reflexivity |].
  intros ct. cbv zeta. apply only_bind; [apply ensure_namespace_never_executes |].
  intros _. apply only_bind; [apply branch_never_executes | intros _; apply only_ret].
Qed.

Lemma ensure_namespace_keeps (kube : Kube) (m : Manager) (label namespace : string) :
  keeps_cluster (ensure_namespace kube m label namespace).
Proof.
  unfold ensure_namespace, notifyStatus. keeps. destruct (negb _); keeps.
Qed.

Lemma argocd_branch_keeps (kube : Kube) (o : NamespaceOptionsModel) :
  keeps_cluster (argocd_branch kube o).
Proof. unfold argocd_branch, grantPermissionToArgoCD, notifyStatus. keeps. Qed.

Lemma set_current_keeps (kube : Kube) (label namespace : string) :
  keeps_cluster (set_current kube label namespace).
Proof. unfold set_current, setCurrentProject, notifyStatus. keeps. Qed.

Lemma set_current_result (kube : Kube) (label namespace : string) (st : State) :
  fst (set_current kube label namespace st)
  = match exec kube ("kubectl config set-context --current --namespace=" +:+ namespace) with
    | Normal _ => Normal namespace
    | Throw e => Throw e
    end.
Proof.
  unfold set_current, setCurrentProject, notifyStatus, call. rewrite !bind_run. simpl.
  destruct (exec kube _); reflexivity.
Qed.

Lemma argocd_branch_never_throws (kube : Kube) (o : NamespaceOptionsModel) (st : State) :
  fst (argocd_branch kube o st) = Normal tt.
Proof.
  unfold argocd_branch, try_catch, grantPermissionToArgoCD, notifyStatus, call.
  rewrite !bind_run. simpl.
  destruct (roleBindings_create kube _ _ _) as [[] | e]; reflexivity.
Qed.

Lemma tekton_statement_throws (kube : Kube) (o : NamespaceOptionsModel) (st : State)
    (e : JsError) :
  tekton o = true ->
  fst (setupTektonPipelineSA (sccs_update_settles kube) (namespace o) (cluster st)) = Throw e ->
  fst (tekton_statement kube o st) = Throw e.
Proof.
  intros Ht He. unfold tekton_statement, try_catch, on_cluster, notifyStatus, call,
    throw_error. rewrite Ht, !bind_run. simpl.
  destruct (setupTektonPipelineSA (sccs_update_settles kube) (namespace o) (cluster st))
    as [r c'].
  simpl in He. subst r. reflexivity.
Qed.

End CreateSplit.

(** With [argocd] set, [create] neither copies config maps or secrets nor
    touches the security context constraints, and an error of the role
    binding for ArgoCD is printed and ignored: [create] settles as it
    would have without that error. *)
Theorem create_under_argocd_ignores_the_role_binding_error
    (kube : NamespaceCreate.Kube) (o : NamespaceCreate.NamespaceOptionsModel)
    (c : NamespaceImpl.Cluster)
    (f : string -> NamespaceCreate.RoleBinding -> string -> Completion unit) :
  NamespaceCreate.argocd o = true ->
  fst (NamespaceCreate.run_create (NamespaceCreate.with_roleBindings_create kube f) o c)
  = fst (NamespaceCreate.run_create kube o c)
  /\ List.filter NamespaceCreate.is_copyAll
                 (NamespaceCreate.calls (snd (NamespaceCreate.run_create kube o c))) = []
  /\ NamespaceCreate.cluster (snd (NamespaceCreate.run_create kube o c)) = c.
Proof.
  intros Hargo. split; [| split].
  - unfold NamespaceCreate.run_create. rewrite !create_split, !bind_run.
    unfold NamespaceCreate.before_set_current. rewrite Hargo, !bind_run.
    unfold NamespaceCreate.call.
    cbn [NamespaceCreate.getClusterType NamespaceCreate.with_roleBindings_create].
    destruct (NamespaceCreate.getClusterType kube _) as [ct | e]; [| reflexivity].
    cbv zeta. rewrite !bind_run.
    change (NamespaceCreate.ensure_namespace
              (NamespaceCreate.with_roleBindings_create kube f))
      with (NamespaceCreate.ensure_namespace kube).
    destruct (NamespaceCreate.ensure_namespace kube _ _ _ _) as [[u | e] st2];
      [| reflexivity].
    rewrite !bind_run.
    pose proof (argocd_branch_never_throws kube o st2) as H1.
    pose proof (argocd_branch_never_throws
                  (NamespaceCreate.with_roleBindings_create kube f) o st2) as H2.
    destruct (NamespaceCreate.argocd_branch kube o st2) as [r1 s1].
    destruct (NamespaceCreate.argocd_branch _ o st2) as [r2 s2].
    simpl in H1, H2. subst r1 r2.
    unfold mret, NamespaceCreate.N_ret. rewrite !set_current_result. reflexivity.
  - apply filter_none.
    assert (H : NamespaceCreate.only (fun c => negb (NamespaceCreate.is_copyAll c))
                  (NamespaceCreate.create kube o)).
    { unfold NamespaceCreate.create. rewrite Hargo.
      unfold NamespaceCreate.ensure_namespace, NamespaceCreate.argocd_branch,
        NamespaceCreate.set_current, NamespaceCreate.setCurrentProject,
        NamespaceCreate.grantPermissionToArgoCD, NamespaceCreate.notifyStatus.
      only_calls. destruct (negb _); only_calls. }
    destruct (H (NamespaceCreate.mkState c [])) as (new & Hnew & Hall).
    unfold NamespaceCreate.run_create. rewrite Hnew. exact Hall.
  - assert (H : NamespaceCreate.keeps_cluster (NamespaceCreate.create kube o)).
    { unfold NamespaceCreate.create. rewrite Hargo.
      apply keeps_bind; [apply keeps_call |]. intros ct. cbv zeta.
      apply keeps_bind; [apply ensure_namespace_keeps |]. intros _.
      apply keeps_bind; [apply argocd_branch_keeps |]. intros _.
      apply set_current_keeps. }
    exact (H (NamespaceCreate.mkState c [])).
Qed.

Lemma create_under_argocd_ignores_the_role_binding_error_witness :
  fst (NamespaceCreate.run_create
         (NamespaceCreate.with_roleBindings_create NamespaceCreate.calm_kube
            (fun _ _ _ => Throw NamespaceCreate.forbidden))
         (NamespaceCreate.mkOptions "dev" "tools" "default" true true "argocd")
         NamespaceCreate.empty_cluster)
  = fst (NamespaceCreate.run_create NamespaceCreate.calm_kube
           (NamespaceCreate.mkOptions "dev" "tools" "default" true true "argocd")
           NamespaceCreate.empty_cluster).
Proof.
  destruct (create_under_argocd_ignores_the_role_binding_error
              NamespaceCreate.calm_kube
              (NamespaceCreate.mkOptions "dev" "tools" "default" true true "argocd")
              NamespaceCreate.empty_cluster
              (fun _ _ _ => Throw NamespaceCreate.forbidden) eq_refl) as (H & _).
  exact H.
Defined.

Section CreateCopy.
Import NamespaceImpl NamespaceCreate.

(** [copy_branch] reaches [tekton_statement] with the security context
    constraints it started with. *)
Lemma copy_branch_normal (kube : Kube) (o : NamespaceOptionsModel) (st st' : State) (u : unit) :
  copy_branch kube o st = (Normal u, st') ->
  exists st1, cluster st1 = cluster st /\ tekton_statement kube o st1 = (Normal u, st').
Proof.
  unfold copy_branch. intros H.
  apply bind_normal in H as (p1 & s1 & H1 & H).
  apply bind_normal in H as (u1 & s2 & H2 & H).
  apply bind_normal in H as (p2 & s3 & H3 & H).
  apply bind_normal in H as (u2 & s4 & H4 & H).
  exists s4. split; [| exact H].
  pose proof (keeps_start_copy kube (copyConfigMaps (namespace o) (templateNamespace o)) st)
    as K1. rewrite H1 in K1.
  pose proof (keeps_call (A := unit) (Progress "Copying ConfigMaps")
                (progress kube p1 "Copying ConfigMaps") s1) as K2. rewrite H2 in K2.
  pose proof (keeps_start_copy kube (copySecrets (namespace o) (templateNamespace o)) s2)
    as K3. rewrite H3 in K3.
  pose proof (keeps_call (A := unit) (Progress "Copying Secrets")
                (progress kube p2 "Copying Secrets") s3) as K4. rewrite H4 in K4.
  simpl in *. congruence.
Qed.

End CreateCopy.

(** Without [argocd] and with [tekton], when the privileged SCC cannot be
    set up, [create] rejects and the current project is never set: no
    command is executed.  (Under [argocd] the error of the role binding is
    ignored instead.) *)
Theorem create_rejects_when_the_pipeline_account_fails
    (kube : NamespaceCreate.Kube) (o : NamespaceCreate.NamespaceOptionsModel)
    (c : NamespaceImpl.Cluster) (e : JsError) :
  NamespaceCreate.argocd o = false ->
  NamespaceCreate.tekton o = true ->
  fst (NamespaceImpl.setupTektonPipelineSA (NamespaceCreate.sccs_update_settles kube)
         (NamespaceCreate.namespace o) c) = Throw e ->
  (forall x, fst (NamespaceCreate.run_create kube o c) <> Normal x)
  /\ List.filter NamespaceCreate.is_exec
                 (NamespaceCreate.calls (snd (NamespaceCreate.run_create kube o c))) = [].
Proof.
  intros Hargo Htekton Hscc.
  assert (Hpre : forall label st',
             NamespaceCreate.before_set_current kube o (NamespaceCreate.mkState c [])
             <> (Normal label, st')).
  { intros label st' H. unfold NamespaceCreate.before_set_current in H.
    apply bind_normal in H as (ct & s1 & H1 & H). cbv zeta in H.
    apply bind_normal in H as (u1 & s2 & H2 & H).
    apply bind_normal in H as (u2 & s3 & H3 & H).
    rewrite Hargo in H3.
    apply copy_branch_normal in H3 as (s & Hs & H3).
    match type of H2 with
    | NamespaceCreate.ensure_namespace _ ?m ?l ?n _ = _ =>
        pose proof (ensure_namespace_keeps kube m l n s1) as K2
    end.
    rewrite H2 in K2.
    unfold NamespaceCreate.call in H1. injection H1 as _ <-. simpl in K2.
    pose proof (tekton_statement_throws kube o s e Htekton) as Ht.
    rewrite Hs, K2 in Ht. specialize (Ht Hscc). rewrite H3 in Ht. discriminate Ht. }
  unfold NamespaceCreate.run_create. rewrite create_split, bind_run.
  destruct (before_set_current_never_executes kube o (NamespaceCreate.mkState c []))
    as (new & Hnew & Hall).
  destruct (NamespaceCreate.before_set_current kube o (NamespaceCreate.mkState c []))
    as [[label | e'] st'] eqn:E.
  - exfalso. exact (Hpre label st' eq_refl).
  - split; [intros x; discriminate |].
    simpl in *. rewrite Hnew. apply filter_none. exact Hall.
Qed.

Lemma create_rejects_when_the_pipeline_account_fails_witness :
  List.filter NamespaceCreate.is_exec
    (NamespaceCreate.calls
       (snd (NamespaceCreate.run_create NamespaceCreate.calm_kube
               (NamespaceCreate.mkOptions "dev" "tools" "default" true false "argocd")
               NamespaceCreate.empty_cluster))) = [].
Proof.
  apply (create_rejects_when_the_pipeline_account_fails NamespaceCreate.calm_kube
           (NamespaceCreate.mkOptions "dev" "tools" "default" true false "argocd")
           NamespaceCreate.empty_cluster (Thrown "NotFound" "privileged"));
    reflexivity.
Defined.

(** When the namespace is its own template, [create] makes no [copyAll]
    call at all, whatever else happens. *)
Theorem create_from_its_own_template_copies_nothing
    (kube : NamespaceCreate.Kube) (o : NamespaceCreate.NamespaceOptionsModel)
    (c : NamespaceImpl.Cluster) :
  NamespaceCreate.templateNamespace o = NamespaceCreate.namespace o ->
  List.filter NamespaceCreate.is_copyAll
              (NamespaceCreate.calls (snd (NamespaceCreate.run_create kube o c))) = [].
Proof.
  intros Hsame. apply filter_none.
  assert (H : NamespaceCreate.only (fun c => negb (NamespaceCreate.is_copyAll c))
                (NamespaceCreate.create kube o)).
  { unfold NamespaceCreate.create, NamespaceCreate.ensure_namespace,
      NamespaceCreate.argocd_branch, NamespaceCreate.copy_branch,
      NamespaceCreate.tekton_statement, NamespaceCreate.set_current,
      NamespaceCreate.setCurrentProject, NamespaceCreate.grantPermissionToArgoCD,
      NamespaceCreate.notifyStatus.
    unfold NamespaceImpl.copyConfigMaps, NamespaceImpl.copySecrets.
    rewrite Hsame, String.eqb_refl.
    only_calls; [destruct (negb _); only_calls |].
    destruct (NamespaceCreate.argocd o); only_calls.
    destruct (NamespaceCreate.tekton o); only_calls. }
  destruct (H (NamespaceCreate.mkState c [])) as (new & Hnew & Hall).
  unfold NamespaceCreate.run_create. rewrite Hnew. exact Hall.
Qed.

Lemma create_from_its_own_template_copies_nothing_witness :
  List.filter NamespaceCreate.is_copyAll
    (NamespaceCreate.calls
       (snd (NamespaceCreate.run_create NamespaceCreate.calm_kube
               (NamespaceCreate.mkOptions "tools" "tools" "default" false false "argocd")
               NamespaceCreate.empty_cluster))) = [].
Proof.
  apply (create_from_its_own_template_copies_nothing NamespaceCreate.calm_kube
           (NamespaceCreate.mkOptions "tools" "tools" "default" false false "argocd")).
  reflexivity.
Defined.

(** When [create] resolves, it resolves to the namespace it was given, and
    the last thing it did was to set that namespace as the current one of
    the kubectl context, which succeeded; when that command fails, [create]
    rejects. *)
Theorem create_resolves_to_the_namespace_after_setting_the_context
    (kube : NamespaceCreate.Kube) (o : NamespaceCreate.NamespaceOptionsModel)
    (c : NamespaceImpl.Cluster) :
  let command :=
    ("kubectl config set-context --current --namespace=" ++ NamespaceCreate.namespace o)%string
  in
  (forall x,
      fst (NamespaceCreate.run_create kube o c) = Normal x ->
      x = NamespaceCreate.namespace o
      /\ NamespaceCreate.exec kube command = Normal tt
      /\ last (NamespaceCreate.calls (snd (NamespaceCreate.run_create kube o c)))
         = Some (NamespaceCreate.Exec command))
  /\ (forall e,
        NamespaceCreate.exec kube command = Throw e ->
        forall x, fst (NamespaceCreate.run_create kube o c) <> Normal x).
Proof.
  intros command.
  assert (Hrun : forall x st',
             NamespaceCreate.run_create kube o c = (Normal x, st') ->
             x = NamespaceCreate.namespace o
             /\ NamespaceCreate.exec kube command = Normal tt
             /\ last (NamespaceCreate.calls st') = Some (NamespaceCreate.Exec command)).
  { intros x st' H. unfold NamespaceCreate.run_create in H. rewrite create_split in H.
    apply bind_normal in H as (label & s1 & _ & H).
    unfold NamespaceCreate.set_current, NamespaceCreate.setCurrentProject,
      NamespaceCreate.notifyStatus, NamespaceCreate.call in H.
    rewrite !bind_run in H. simpl in H. fold command in H.
    destruct (NamespaceCreate.exec kube command) as [[] | e]; [| discriminate H].
    injection H as <- <-. simpl. repeat split.
    first [apply last_snoc | rewrite app_assoc; apply last_snoc]. }
  split.
  - intros x Hx.
    destruct (NamespaceCreate.run_create kube o c) as [r st'] eqn:E.
    simpl in Hx. subst r. exact (Hrun x st' eq_refl).
  - intros e He x Hx.
    destruct (NamespaceCreate.run_create kube o c) as [r st'] eqn:E.
    simpl in Hx. subst r. destruct (Hrun x st' eq_refl) as (_ & Hexec & _). congruence.
Qed.

Lemma create_resolves_to_the_namespace_after_setting_the_context_witness :
  fst (NamespaceCreate.run_create NamespaceCreate.calm_kube
         (NamespaceCreate.mkOptions "dev" "tools" "default" true false "argocd")
         NamespaceImpl.example_cluster) = Normal "dev"
  /\ "dev" = "dev".
Proof.
  split; [vm_compute; reflexivity |].
  destruct (create_resolves_to_the_namespace_after_setting_the_context
              NamespaceCreate.calm_kube
              (NamespaceCreate.mkOptions "dev" "tools" "default" true false "argocd")
              NamespaceImpl.example_cluster) as [H _].
  apply (H "dev"). vm_compute; reflexivity.
Defined.

(** ** More on [setupTektonPipelineSA] and on the lock strategies *)



(** Under every lock strategy other than the pessimistic one the promise
    of [commonHandler] resolves, whatever [populate] does: the
    [NoopMutex] neither fails to claim nor to release, and an error of
    [populate] is not rethrown. *)
Theorem commonHandler_resolves_without_the_pessimistic_lock
    (w : World) (k : Container) (argv : JsObject) :
  ~ (field argv "lock" = JStr "pessimistic" \/ field argv "lock" = JStr "p") ->
  fst (run_commonHandler w k argv) = Normal tt
  /\ claim_var (snd (run_commonHandler w k argv)) = Some NoopClaim.
Proof.
  intros Hlock.
  assert (Hm : handler_mutex argv = NoopMutex).
  { unfold handler_mutex.
    destruct (createMutex_cases (field argv "lock") (field argv "tmpDir")
                "gitops-module" (VerboseLogger (field argv "debug")))
      as [[Hl _] | [_ ->]]; [contradiction | reflexivity]. }
  assert (Hc : mutex_claim w (handler_mutex argv) (claim_key argv) = Normal NoopClaim)
    by (rewrite Hm; reflexivity).
  rewrite (run_claim_ok _ _ _ _ Hc). split; reflexivity.
Qed.

Lemma commonHandler_resolves_without_the_pessimistic_lock_witness :
  fst (run_commonHandler failing_populate_world default_container (argv_of "optimistic"))
  = Normal tt.
Proof.
  apply (commonHandler_resolves_without_the_pessimistic_lock failing_populate_world
           default_container (argv_of "optimistic")).
  intros [H | H]; vm_compute in H; discriminate H.
Defined.

(** ** [src/index.ts] *)

Section IbmcloudImageFacts.
Import IbmcloudImage.

Lemma extract_fold (names : list string) (env argv : gmap string string) (name : string) :
  fold_left (fun result n => env_assign result n (argv !! n)) names env !! name
  = if bool_decide (name ∈ names) then Some (default "undefined" (argv !! name))
    else env !! name.
Proof.
  revert env. induction names as [| n names IH]; intros env; cbn [fold_left].
  - rewrite bool_decide_eq_false_2 by apply not_elem_of_nil. reflexivity.
  - rewrite IH. unfold env_assign.
    destruct (decide (name ∈ names)) as [Hin | Hnin].
    + rewrite !bool_decide_eq_true_2 by (try apply elem_of_cons; tauto). reflexivity.
    + rewrite (bool_decide_eq_false_2 (name ∈ names)) by exact Hnin.
      destruct (decide (n = name)) as [-> | Hne].
      * rewrite bool_decide_eq_true_2 by (apply elem_of_cons; tauto). apply lookup_insert_eq.
      * rewrite bool_decide_eq_false_2 by (rewrite elem_of_cons; intros [? | ?]; congruence).
        apply lookup_insert_ne. exact Hne.
Qed.

Lemma initialize_fold (names : list string) (env argv : gmap string string) (name : string) :
  Forall (fun n => env_set env n = true) names ->
  fold_left (fun argv n => match env !! n with
                           | Some s => <[n := s]> argv
                           | None => argv
                           end) names argv !! name
  = if bool_decide (name ∈ names) then env !! name else argv !! name.
Proof.
  revert argv. induction names as [| n names IH]; intros argv Hall; cbn [fold_left].
  - rewrite bool_decide_eq_false_2 by apply not_elem_of_nil. reflexivity.
  - apply Forall_cons in Hall as [Hn Hall]. rewrite IH by exact Hall.
    unfold env_set in Hn. destruct (env !! n) as [s |] eqn:Es; [| discriminate].
    destruct (decide (name ∈ names)) as [Hin | Hnin].
    + rewrite !bool_decide_eq_true_2 by (try apply elem_of_cons; tauto). reflexivity.
    + rewrite (bool_decide_eq_false_2 (name ∈ names)) by exact Hnin.
      destruct (decide (n = name)) as [-> | Hne].
      * rewrite bool_decide_eq_true_2 by (apply elem_of_cons; tauto).
        rewrite lookup_insert_eq. auto.
      * rewrite bool_decide_eq_false_2 by (rewrite elem_of_cons; intros [? | ?]; congruence).
        apply lookup_insert_ne. exact Hne.
Qed.

End IbmcloudImageFacts.

(** [buildOptionWithEnvDefault] returns an object with the one property
    [key], whose value is [options] with [default] set to the environment
    variable [key] when that is set and not empty, and [options] as it is
    otherwise, whether it has a default or not. *)
Theorem buildOptionWithEnvDefault_prefers_the_environment
    (env : gmap string string) (key : string)
    (options : gmap string IbmcloudImage.OptionValue) :
  IbmcloudImage.buildOptionWithEnvDefault env key options
  = {[ key := match env !! key with
              | Some s => if String.eqb s EmptyString then options
                          else <["default" := IbmcloudImage.OString s]> options
              | None => options
              end ]}.
Proof.
  unfold IbmcloudImage.buildOptionWithEnvDefault, IbmcloudImage.env_or_default.
  f_equal.
  assert (Hkeep : match options !! "default" with
                  | Some d => if IbmcloudImage.truthy_value d
                              then ({[ "default" := d ]} : gmap string _) else ∅
                  | None => ∅
                  end ∪ options = options).
  { destruct (options !! "default") as [d |] eqn:Ed; [| apply (left_id_L ∅ (∪))].
    destruct (IbmcloudImage.truthy_value d); [| apply (left_id_L ∅ (∪))].
    rewrite <- insert_union_singleton_l. apply insert_id. exact Ed. }
  destruct (env !! key) as [s |]; [| exact Hkeep].
  destruct (String.eqb s EmptyString) eqn:Es; cbn [negb]; [exact Hkeep |].
  cbn [IbmcloudImage.truthy_value]. rewrite Es. cbn [negb].
  rewrite <- insert_union_singleton_l. reflexivity.
Qed.

(** [extractEnvironmentProperties] overwrites exactly the eight variables of
    [ENV_PROPERTIES], each with the value of [argv] of that name, or with
    the string ['undefined'] when [argv] has none, and leaves every other
    variable of the environment as it is; [IMAGE_NAME], [IMAGE_VERSION]
    and [ENVIRONMENT_NAME] are among those it leaves. *)
Theorem extractEnvironmentProperties_overwrites_the_listed_variables
    (env argv : gmap string string) :
  (forall name,
      In name IbmcloudImage.ENV_PROPERTIES ->
      IbmcloudImage.extractEnvironmentProperties env argv !! name
      = Some (default "undefined" (argv !! name)))
  /\ (forall name,
        ~ In name IbmcloudImage.ENV_PROPERTIES ->
        IbmcloudImage.extractEnvironmentProperties env argv !! name = env !! name)
  /\ Forall (fun name =>
               IbmcloudImage.extractEnvironmentProperties env argv !! name = env !! name)
            ["IMAGE_NAME"; "IMAGE_VERSION"; "ENVIRONMENT_NAME"].
Proof.
  unfold IbmcloudImage.extractEnvironmentProperties.
  assert (Hout : forall name,
             ~ In name IbmcloudImage.ENV_PROPERTIES ->
             fold_left (fun result n => IbmcloudImage.env_assign result n (argv !! n))
                       IbmcloudImage.ENV_PROPERTIES env !! name = env !! name).
  { intros name Hnin. rewrite extract_fold, bool_decide_eq_false_2; [reflexivity |].
    rewrite list_elem_of_In. exact Hnin. }
  split; [| split].
  - intros name Hin. rewrite extract_fold, bool_decide_eq_true_2; [reflexivity |].
    rewrite list_elem_of_In. exact Hin.
  - exact Hout.
  - repeat constructor; apply Hout; simpl; intros H;
      repeat (destruct H as [H | H]; [discriminate H |]); exact H.
Qed.

Lemma extractEnvironmentProperties_overwrites_the_listed_variables_witness :
  IbmcloudImage.extractEnvironmentProperties
    {[ "PATH" := "/usr/bin"; "REGION" := "eu-de" ]} {[ "REGION" := "us-south" ]}
    !! "CHART_ROOT" = Some "undefined".
Proof.
  destruct (extractEnvironmentProperties_overwrites_the_listed_variables
              {[ "PATH" := "/usr/bin"; "REGION" := "eu-de" ]} {[ "REGION" := "us-south" ]})
    as [H _].
  rewrite H; [vm_compute; reflexivity |].
  simpl. tauto.
Defined.

(** After [initializeArgumentsFromEnvironment], the arguments hold the
    environment's value for every variable of [ENV_PROPERTIES] that is set
    and not empty, and are unchanged elsewhere; so
    [extractEnvironmentProperties] then writes back to such a variable the
    value it already has. *)
Theorem initialize_then_extract_keeps_the_set_variables
    (env argv : gmap string string) (name : string) :
  let argv' := IbmcloudImage.initializeArgumentsFromEnvironment env argv in
  (In name IbmcloudImage.ENV_PROPERTIES -> IbmcloudImage.env_set env name = true ->
   argv' !! name = env !! name
   /\ IbmcloudImage.extractEnvironmentProperties env argv' !! name = env !! name)
  /\ (~ (In name IbmcloudImage.ENV_PROPERTIES /\ IbmcloudImage.env_set env name = true) ->
      argv' !! name = argv !! name).
Proof.
  intros argv'. subst argv'. unfold IbmcloudImage.initializeArgumentsFromEnvironment.
  assert (Hall : Forall (fun n => IbmcloudImage.env_set env n = true)
                        (List.filter (IbmcloudImage.env_set env)
                                     IbmcloudImage.ENV_PROPERTIES)).
  { apply Forall_forall. intros n Hn. apply list_elem_of_In, List.filter_In in Hn. tauto. }
  split.
  - intros Hin Hset.
    assert (H1 : fold_left
                   (fun argv n => match env !! n with
                                  | Some s => <[n := s]> argv
                                  | None => argv
                                  end)
                   (List.filter (IbmcloudImage.env_set env) IbmcloudImage.ENV_PROPERTIES)
                   argv !! name = env !! name).
    { rewrite initialize_fold by exact Hall.
      rewrite bool_decide_eq_true_2; [reflexivity |].
      apply list_elem_of_In, List.filter_In. tauto. }
    split; [exact H1 |].
    unfold IbmcloudImage.extractEnvironmentProperties.
    rewrite extract_fold, bool_decide_eq_true_2 by (rewrite list_elem_of_In; exact Hin).
    rewrite H1.
    unfold IbmcloudImage.env_set in Hset.
    destruct (env !! name); [reflexivity | discriminate].
  - intros Hnot. rewrite initialize_fold by exact Hall.
    rewrite bool_decide_eq_false_2; [reflexivity |].
    intros H. apply list_elem_of_In, List.filter_In in H. tauto.
Qed.

Lemma initialize_then_extract_keeps_the_set_variables_witness :
  IbmcloudImage.extractEnvironmentProperties {[ "REGION" := "eu-de" ]}
    (IbmcloudImage.initializeArgumentsFromEnvironment {[ "REGION" := "eu-de" ]}
                                                      {[ "REGION" := "us-south" ]})
    !! "REGION" = Some "eu-de".
Proof.
  destruct (initialize_then_extract_keeps_the_set_variables
              {[ "REGION" := "eu-de" ]} {[ "REGION" := "us-south" ]} "REGION") as [H _].
  destruct H as [_ H]; [simpl; tauto | vm_compute; reflexivity |].
  rewrite H. vm_compute. reflexivity.
Defined.

(** ** Terraform variables of the module selector *)

(** [fromBaseVariable] looks for [variableName] first, then for
    [moduleRef], then for [variable]: a value with a non-empty
    [variableName] becomes a [GlobalRefVariable] whatever else it has, and
    the call throws exactly when the value is missing or has none of the
    three.  The instance holds the properties of the value (a module
    reference with [scope] defaulted to ['module']), and passing the
    properties of the instance gives the same instance again. *)
Theorem fromBaseVariable_classifies_by_the_first_matching_guard
    (stringify : option ModuleSelectorVariables.IBaseVariable -> string)
    (variable : option ModuleSelectorVariables.IBaseVariable) :
  match ModuleSelectorVariables.fromBaseVariable stringify variable with
  | Normal b =>
      ModuleSelectorVariables.fromBaseVariable stringify
        (Some (ModuleSelectorVariables.fields b)) = Normal b
      /\ match b with
         | ModuleSelectorVariables.GlobalRefVariable this =>
             variable = Some this
             /\ ModuleSelectorVariables.isGlobalRefVariable variable = true
         | ModuleSelectorVariables.ModuleRefVariable this =>
             ModuleSelectorVariables.isGlobalRefVariable variable = false
             /\ ModuleSelectorVariables.isModuleRefVariable variable = true
             /\ exists v,
                  variable = Some v
                  /\ ModuleSelectorVariables.new_ModuleRefVariable v
                     = ModuleSelectorVariables.ModuleRefVariable this
                  /\ ModuleSelectorVariables.scope this
                     = Some (default "module" (ModuleSelectorVariables.scope v))
         | ModuleSelectorVariables.PlaceholderVariable this =>
             variable = Some this
             /\ ModuleSelectorVariables.isGlobalRefVariable variable = false
             /\ ModuleSelectorVariables.isModuleRefVariable variable = false
             /\ ModuleSelectorVariables.isPlaceholderVariable variable = true
         end
  | Throw e =>
      e = Thrown "Error" ("Unknown variable type: " ++ stringify variable)%string
      /\ ModuleSelectorVariables.isGlobalRefVariable variable = false
      /\ ModuleSelectorVariables.isModuleRefVariable variable = false
      /\ ModuleSelectorVariables.isPlaceholderVariable variable = false
  end.
Proof.
  destruct variable as [v |]; [| repeat split].
  unfold ModuleSelectorVariables.fromBaseVariable.
  destruct (ModuleSelectorVariables.isGlobalRefVariable (Some v)) eqn:Eg.
  { cbn [ModuleSelectorVariables.fields]. rewrite Eg. repeat split. }
  destruct (ModuleSelectorVariables.isModuleRefVariable (Some v)) eqn:Em.
  { cbn [ModuleSelectorVariables.new_ModuleRefVariable ModuleSelectorVariables.fields].
    split.
    - destruct v as [n d t sc al dv vn mr mo va]. cbn in Eg, Em |- *. rewrite Eg.
      destruct mr; [| discriminate]. destruct sc; reflexivity.
    - repeat split. exists v. repeat split. }
  destruct (ModuleSelectorVariables.isPlaceholderVariable (Some v)) eqn:Ep.
  { cbn [ModuleSelectorVariables.fields]. rewrite Eg, Em, Ep. repeat split. }
  repeat split.
Qed.

(** The string of a variable made by [fromBaseVariable]: a placeholder
    gives the empty string, a global reference the line
    [name = var.variableName], and a module reference the line
    [name = module.stage.output] for the stage registered under its
    source; [asString] throws only for a module reference whose source is
    not among the stages. *)
Theorem asString_of_a_classified_variable
    (stringify : option ModuleSelectorVariables.IBaseVariable -> string)
    (variable : option ModuleSelectorVariables.IBaseVariable)
    (b : ModuleSelectorVariables.BaseVariable) (stages : gmap string string) :
  ModuleSelectorVariables.fromBaseVariable stringify variable = Normal b ->
  match b with
  | ModuleSelectorVariables.PlaceholderVariable _ =>
      ModuleSelectorVariables.asString b stages = Normal EmptyString
  | ModuleSelectorVariables.GlobalRefVariable this =>
      exists v,
        ModuleSelectorVariables.variableName this = Some v /\ v <> EmptyString
        /\ ModuleSelectorVariables.asString b stages
           = Normal (ModuleSelectorVariables.name this ++ " = var." ++ v
                     ++ ModuleSelectorVariables.nl)%string
  | ModuleSelectorVariables.ModuleRefVariable this =>
      exists ref,
        ModuleSelectorVariables.moduleRef this = Some ref
        /\ match stages !! ModuleSelectorVariables.source ref with
           | None =>
               ModuleSelectorVariables.asString b stages
               = Throw (TypeError "Cannot read properties of undefined (reading 'name')")
           | Some stage =>
               ModuleSelectorVariables.asString b stages
               = Normal (ModuleSelectorVariables.name this ++ " = module." ++ stage ++ "."
                         ++ ModuleSelectorVariables.interpolate
                              (ModuleSelectorVariables.moduleOutputName this)
                         ++ ModuleSelectorVariables.nl)%string
           end
  end.
Proof.
  intros Hfrom.
  destruct variable as [v |]; [| discriminate Hfrom].
  unfold ModuleSelectorVariables.fromBaseVariable in Hfrom.
  destruct (ModuleSelectorVariables.isGlobalRefVariable (Some v)) eqn:Eg.
  { injection Hfrom as <-. cbn in Eg.
    destruct (ModuleSelectorVariables.variableName v) as [x |] eqn:Ev; [| discriminate].
    exists x. split; [reflexivity |]. split.
    - intros ->. discriminate Eg.
    - cbn. rewrite Ev. reflexivity. }
  destruct (ModuleSelectorVariables.isModuleRefVariable (Some v)) eqn:Em.
  { injection Hfrom as <-. cbn in Em.
    destruct (ModuleSelectorVariables.moduleRef v) as [ref |] eqn:Er; [| discriminate].
    cbn. rewrite Er. exists ref. split; [reflexivity |].
    destruct (stages !! ModuleSelectorVariables.source ref); reflexivity. }
  destruct (ModuleSelectorVariables.isPlaceholderVariable (Some v)) eqn:Ep;
    [| discriminate Hfrom].
  injection Hfrom as <-. reflexivity.
Qed.

Lemma asString_of_a_classified_variable_witness :
  ModuleSelectorVariables.asString
    (ModuleSelectorVariables.GlobalRefVariable ModuleSelectorVariables.example_variable)
    {[ "cluster" := "ocp-cluster" ]}
  = Normal ("cluster_name = var.name" ++ ModuleSelectorVariables.nl)%string.
Proof.
  destruct (asString_of_a_classified_variable ModuleSelectorVariables.stringify_name
              (Some ModuleSelectorVariables.example_variable)
              (ModuleSelectorVariables.GlobalRefVariable
                 ModuleSelectorVariables.example_variable)
              {[ "cluster" := "ocp-cluster" ]} eq_refl) as (v & Hv & _ & H).
  injection Hv as <-. exact H.
Defined.

Section TerraformFacts.
Import ModuleSelectorVariables.

Lemma string_append_assoc (a b c : string) : ((a ++ b) ++ c = a ++ (b ++ c))%string.
Proof.
  induction a as [| x a IH]; [reflexivity |].
  change (String x ((a ++ b) ++ c) = String x (a ++ (b ++ c)))%string.
  rewrite IH. reflexivity.
Qed.

Lemma get_value_some (name x : string) (type description : option string) :
  get_value (new_TerraformVariableImpl name (Some x) type description) = x.
Proof.
  unfold get_value. cbn. destruct (String.eqb_spec x EmptyString) as [-> | _]; reflexivity.
Qed.

Lemma or_else_not_empty (a : option string) (d : string) :
  d <> EmptyString -> or_else a d <> EmptyString.
Proof.
  intros Hd. unfold or_else. destruct a as [s |]; [| exact Hd].
  destruct (String.eqb_spec s EmptyString); assumption.
Qed.

End TerraformFacts.

(** The block that [TerraformVariableImpl.asString] renders: the type is
    never empty and is ['string'] when none was given; the description is
    ['the value of NAME'] when none was given; there is a [default] line
    exactly when a value was given, also when that value is the empty
    string, and the value is put between double quotes unless the type is
    ['bool'] or ['number']. *)
Theorem terraform_variable_block
    (name : string) (value type description : option string) :
  let this := ModuleSelectorVariables.new_TerraformVariableImpl name value type description in
  let dq := ModuleSelectorVariables.dq in
  let nl := ModuleSelectorVariables.nl in
  let head :=
    ("variable " ++ dq ++ name ++ dq ++ " {" ++ nl
     ++ "  type = " ++ ModuleSelectorVariables.get_type this ++ nl
     ++ "  description = " ++ dq ++ ModuleSelectorVariables.get_description this ++ dq)%string
  in
  ModuleSelectorVariables.get_type this <> EmptyString
  /\ (type = None -> ModuleSelectorVariables.get_type this = "string")
  /\ (description = None ->
      ModuleSelectorVariables.get_description this = ("the value of " ++ name)%string)
  /\ match value with
     | None =>
         ModuleSelectorVariables.terraform_asString this = (head ++ nl ++ "}" ++ nl)%string
     | Some x =>
         ModuleSelectorVariables.terraform_asString this
         = (head ++ nl ++ "  default = "
            ++ (if String.eqb (ModuleSelectorVariables.get_type this) "bool"
                   || String.eqb (ModuleSelectorVariables.get_type this) "number"
                then x else dq ++ x ++ dq)
            ++ nl ++ "}" ++ nl)%string
     end.
Proof.
  intros this dq nl head. split; [| split; [| split]].
  - apply or_else_not_empty. discriminate.
  - intros ->. reflexivity.
  - intros ->. reflexivity.
  - subst head. unfold ModuleSelectorVariables.terraform_asString,
      ModuleSelectorVariables.defaultValueProp.
    fold dq nl. destruct value as [x |].
    + subst this. cbn [ModuleSelectorVariables._value
        ModuleSelectorVariables.new_TerraformVariableImpl].
      rewrite get_value_some.
      set (t := ModuleSelectorVariables.get_type _).
      set (d := ModuleSelectorVariables.get_description _).
      cbn [ModuleSelectorVariables.tf_name].
      repeat rewrite string_append_assoc. reflexivity.
    + subst this. cbn [ModuleSelectorVariables._value
        ModuleSelectorVariables.new_TerraformVariableImpl ModuleSelectorVariables.tf_name].
      repeat rewrite string_append_assoc. reflexivity.
Qed.

Lemma terraform_variable_block_witness :
  ModuleSelectorVariables.get_type
    (ModuleSelectorVariables.new_TerraformVariableImpl "region" (Some "us-south") None None)
  = "string".
Proof.
  destruct (terraform_variable_block "region" (Some "us-south") None None)
    as (_ & H & _).
  apply H. reflexivity.
Defined.

(** ** The [git] command and [getCurrentProject] *)

(** The promise of the handler of the [git] command rejects only when
    [Container.get] throws, with that error and before anything is
    printed: an error of [getGitConfig] or of [open] is reported on the
    console instead.  The handler opens the browser at most once, exactly
    when [getGitConfig] resolved to a configuration with a non-empty url,
    and with that url; in every other case it prints one message and
    opens nothing. *)
Theorem git_handler_rejects_only_without_the_service
    (git : GitCommand.Git) (argv : JsObject) :
  let run := GitCommand.handler git argv in
  match GitCommand.container_get git with
  | Throw err => run = (Throw err, [])
  | Normal gitParams =>
      fst run = Normal tt
      /\ match GitCommand.getGitConfig gitParams (field argv "remote") with
         | Normal (Some (GitCommand.mkGitConfig (Some u))) =>
             if String.eqb u EmptyString
             then snd run = [GitCommand.ConsoleLog "Unable to find git repo config"]
             else List.filter GitCommand.is_open (snd run) = [GitCommand.Open u]
                  /\ exists rest,
                       snd run
                       = GitCommand.ConsoleLog ("Launching git repo url: " ++ u)%string
                         :: GitCommand.Open u :: rest
                       /\ match GitCommand.open git u with
                          | Normal _ => rest = []
                          | Throw err => rest = GitCommand.report git err
                          end
         | Normal _ => snd run = [GitCommand.ConsoleLog "Unable to find git repo config"]
         | Throw err =>
             snd run = GitCommand.report git err
             /\ List.filter GitCommand.is_open (snd run) = []
         end
  end.
Proof.
  intros run. subst run. unfold GitCommand.handler.
  destruct (GitCommand.container_get git) as [gitParams | err0]; [| reflexivity].
  unfold GitCommand.try_block.
  destruct (GitCommand.getGitConfig gitParams (field argv "remote"))
    as [[[[u |]] |] | err]; cbn [GitCommand.no_url GitCommand.url].
  - destruct (String.eqb u EmptyString) eqn:Eu; [split; reflexivity |].
    cbn [mbind option_bind GitCommand.url].
    destruct (GitCommand.open git _) as [[] | err]; cbn [fst snd].
    + split; [reflexivity |]. split; [reflexivity | eexists; split; reflexivity].
    + split; [reflexivity |]. split; [| eexists; split; reflexivity].
      unfold GitCommand.report. destruct (GitCommand.isNoGitRepoError git err); reflexivity.
  - split; reflexivity.
  - split; reflexivity.
  - split; [reflexivity |]. split; [reflexivity |].
    unfold GitCommand.report. destruct (GitCommand.isNoGitRepoError git err); reflexivity.
Qed.

Section CurrentProjectFacts.
Import CurrentProject.


End CurrentProjectFacts.


